(** * SteamPP: the message handlers of [SteamClient::HandleMessage]

    A shallow embedding of [src/handlers.cpp].  The handler is a [void]
    member function that reads a raw byte buffer, mutates the client
    object and calls out to callbacks, to the send primitive, to the timer
    service and to external libraries (protobuf, OpenSSL, zlib,
    libarchive).  It is embedded as a state transformer on a record
    [SteamClient] that returns how the call ended ([Outcome]); every call
    that leaves the function is appended to the client's [log].

    Conventions:
    - the buffer [(data, length)] is a [list byte]; a read that the
      handler itself makes outside of it is undefined behaviour: the
      model follows the call no further and answers [BadRead], with the
      client as it is at that read, and says nothing of what a compiled
      handler goes on to do;
    - the host is little-endian, as the wire format is;
    - [assert] is the macro of <cassert>: with [NDEBUG] it expands to
      nothing (its argument is not evaluated), without it a false
      condition aborts the process. *)

From Stdlib Require Import String ZArith List Bool Lia.
From coqutil Require Import Byte Word.LittleEndianList.
Import ListNotations.
Local Open Scope Z_scope.

Definition bytes := list byte.

(** ** Raw memory reads *)

Module Mem.

(** The [len] bytes at [buf + off], when they all lie inside [buf]. *)
Definition slice (buf : bytes) (off len : Z) : option bytes :=
  if (0 <=? off) && (0 <=? len) && (off + len <=? Z.of_nat (length buf))
  then Some (firstn (Z.to_nat len) (skipn (Z.to_nat off) buf))
  else None.

(** [*reinterpret_cast<const std::uint32_t*>(buf + off)] *)
Definition read_u32 (buf : bytes) (off : Z) : option Z :=
  option_map le_combine (slice buf off 4).

(** [*reinterpret_cast<const std::uint64_t*>(buf + off)] *)
Definition read_u64 (buf : bytes) (off : Z) : option Z :=
  option_map le_combine (slice buf off 8).

(** The pointer [buf + off] seen as a view that runs to the end of the
    buffer; [off = length buf] is the one-past-the-end pointer. *)
Definition view (buf : bytes) (off : Z) : option bytes :=
  if (0 <=? off) && (off <=? Z.of_nat (length buf))
  then Some (skipn (Z.to_nat off) buf)
  else None.

Definition is_nul (b : byte) : bool := Byte.eqb b Byte.x00.

(** [std::find(begin, end, '\0')] on the range [l]: the index of the
    first null byte, [None] standing for [end]. *)
Fixpoint find_nul (l : bytes) : option nat :=
  match l with
  | [] => None
  | b :: t => if is_nul b then Some O else option_map S (find_nul t)
  end.

(** What the reader of a [const char*] sees when the pointer is the
    start of [l] and [l] runs to the end of the buffer: the bytes before
    the first null; without a null the reader leaves the buffer. *)
Fixpoint c_string (l : bytes) : option bytes :=
  match l with
  | [] => None
  | b :: t => if is_nul b then Some [] else option_map (cons b) (c_string t)
  end.

(** [std::string(begin, n)]: a copy of the range, which the string
    class follows with a terminating null. *)
Definition std_string (l : bytes) : bytes := l ++ [Byte.x00].

Definition wrap32 (z : Z) : Z := z mod 2 ^ 32.

End Mem.

(** ** Message kinds *)

(** The cases of the [switch], the kinds the handler sends, and every
    other value of the enumeration. *)
Inductive EMsg :=
| ChannelEncryptRequest
| ChannelEncryptResponse
| ChannelEncryptResult
| Multi
| ClientLogOnResponse
| ClientHeartBeat
| ClientUpdateMachineAuth
| ClientUpdateMachineAuthResponse
| ClientPersonaState
| ClientChatMsg
| ClientChatEnter
| ClientChatMemberInfo
| OtherEMsg (value : Z).

(** ** Calls that leave the handler *)

Inductive Call :=
| OnHandshake
| OnLogOn (eresult steamID : Z)
| OnSentry (sha : bytes)
| OnUserInfo (friendid steamid_source : Z) (player_name : bytes)
| OnChatMsg (steamIdChatRoom steamIdChatter : Z) (text : bytes)
| OnChatEnter (steamIdChat enterResponse : Z) (chat_name : bytes)
              (member_count : Z) (members : bytes)
| OnChatStateChange (steamIdChat acted_by acted_on state_change : Z)
                    (member : bytes)
(* [WriteMessage(emsg, flag, size, fill, job_id)], with the [size] bytes
   that [fill] writes.  The spec reads [flag] as the mark of an encrypted
   message. *)
| WriteMessage (emsg : EMsg) (flag : bool) (body : bytes) (job_id : Z)
(* [setInterval(action, interval)] where [action] is one [WriteMessage]. *)
| setInterval (emsg : EMsg) (flag : bool) (body : bytes) (interval : Z)
(* [SHA1(blob, n, NULL)] *)
| CallSHA1 (blob : bytes).

(** ** The client object *)

(** The callback members are [std::function] objects; only whether one is
    set matters to the handler.  [log] is the history of outgoing calls. *)
Record SteamClient := mkClient {
  encrypted : bool;
  sessionKey : bytes;
  steamID : Z;
  onHandshake : bool;
  onLogOn : bool;
  onSentry : bool;
  onUserInfo : bool;
  onChatMsg : bool;
  onChatEnter : bool;
  onChatStateChange : bool;
  log : list Call
}.

Definition set_encrypted (v : bool) (c : SteamClient) : SteamClient :=
  mkClient v (sessionKey c) (steamID c) (onHandshake c) (onLogOn c)
           (onSentry c) (onUserInfo c) (onChatMsg c) (onChatEnter c)
           (onChatStateChange c) (log c).

Definition set_sessionKey (k : bytes) (c : SteamClient) : SteamClient :=
  mkClient (encrypted c) k (steamID c) (onHandshake c) (onLogOn c)
           (onSentry c) (onUserInfo c) (onChatMsg c) (onChatEnter c)
           (onChatStateChange c) (log c).

Definition record (e : Call) (c : SteamClient) : SteamClient :=
  mkClient (encrypted c) (sessionKey c) (steamID c) (onHandshake c)
           (onLogOn c) (onSentry c) (onUserInfo c) (onChatMsg c)
           (onChatEnter c) (onChatStateChange c) (log c ++ [e]).

(** ** How a call ends *)

Inductive Outcome :=
| Returned            (* the function returns *)
| Aborted             (* a failed [assert] ends the process *)
| Thrown              (* an exception leaves the function *)
| BadRead             (* a read outside the buffer: undefined behaviour *)
| Diverged.           (* the walk over a batch has not come to an end *)

Definition Action := SteamClient -> Outcome * SteamClient.

Definition ret : Action := fun c => (Returned, c).
Definition stop (o : Outcome) : Action := fun c => (o, c).
Definition call (e : Call) : Action := fun c => (Returned, record e c).
Definition modify (f : SteamClient -> SteamClient) : Action :=
  fun c => (Returned, f c).

Definition and_then (a b : Action) : Action :=
  fun c => match a c with
           | (Returned, c') => b c'
           | r => r
           end.

(** A value read from the buffer, or [BadRead]. *)
Definition reading {A} (o : option A) (k : A -> Action) : Action :=
  match o with
  | Some a => k a
  | None => stop BadRead
  end.

Declare Scope action_scope.
Delimit Scope action_scope with action.
Notation "a ;; b" := (and_then a b)
  (at level 61, right associativity) : action_scope.
Notation "x <- o ;; k" := (reading o (fun x => k))
  (at level 61, o at next level, right associativity) : action_scope.
Notation "'when' b 'then' a" := (if b then a else ret)
  (at level 60, a at level 60) : action_scope.
Local Open Scope action_scope.

(** ** What the missing headers and the external libraries provide *)

(** [steam_language_internal.h]: the constants and the layouts of the
    structs that the handler lays over the buffer.  A field is known by
    its offset in its struct. *)
Record SteamLanguage := {
  EResult_OK : Z;
  EChatInfoType_StateChange : Z;
  sizeof_MsgChannelEncryptRequest : Z;
  (* the bytes of a default-constructed [MsgChannelEncryptResponse] *)
  new_MsgChannelEncryptResponse : bytes;
  sizeof_MsgChannelEncryptResult : Z;
  MsgChannelEncryptResult_result : Z;
  sizeof_MsgClientChatMsg : Z;
  MsgClientChatMsg_steamIdChatRoom : Z;
  MsgClientChatMsg_steamIdChatter : Z;
  sizeof_MsgClientChatEnter : Z;
  MsgClientChatEnter_steamIdChat : Z;
  MsgClientChatEnter_enterResponse : Z;
  sizeof_MsgClientChatMemberInfo : Z;
  MsgClientChatMemberInfo_steamIdChat : Z;
  MsgClientChatMemberInfo_type : Z
}.

(** A field of [width] bytes at [off] lies inside a struct of [size]. *)
Definition field_in (off width size : Z) : Prop :=
  0 <= off /\ off + width <= size.

Record layout_ok (L : SteamLanguage) : Prop := {
  result_in :
    field_in (MsgChannelEncryptResult_result L) 4
             (sizeof_MsgChannelEncryptResult L);
  chatroom_in :
    field_in (MsgClientChatMsg_steamIdChatRoom L) 8
             (sizeof_MsgClientChatMsg L);
  chatter_in :
    field_in (MsgClientChatMsg_steamIdChatter L) 8
             (sizeof_MsgClientChatMsg L);
  chat_in :
    field_in (MsgClientChatEnter_steamIdChat L) 8
             (sizeof_MsgClientChatEnter L);
  response_in :
    field_in (MsgClientChatEnter_enterResponse L) 4
             (sizeof_MsgClientChatEnter L);
  info_chat_in :
    field_in (MsgClientChatMemberInfo_steamIdChat L) 8
             (sizeof_MsgClientChatMemberInfo L);
  info_type_in :
    field_in (MsgClientChatMemberInfo_type L) 4
             (sizeof_MsgClientChatMemberInfo L)
}.

(** The parsed protobuf messages ([steammessages_clientserver.pb.h]),
    with the fields the handler reads. *)
Record CMsgMulti := {
  size_unzipped : Z;
  message_body : bytes
}.

Record CMsgClientLogonResponse := {
  eresult : Z;
  out_of_game_heartbeat_seconds : Z
}.

Record CMsgClientUpdateMachineAuth := {
  (* the field [bytes] *)
  auth_bytes : bytes
}.

Record Friend := {
  friendid : Z;
  steamid_source : Z;
  player_name : bytes
}.

Record CMsgClientPersonaState := {
  friends : list Friend
}.

(** One entry of a container as libarchive shows it. *)
Record archive_entry := {
  archive_entry_pathname : string;
  archive_entry_size : Z;
  entry_data : bytes
}.

(** protobuf ([ParseFromArray], [SerializeToArray]), OpenSSL, zlib and
    libarchive.  [archive_read_open_memory] gives the entries of a
    readable container and [None] for bytes that are not one. *)
Record Providers := {
  parse_CMsgMulti : bytes -> CMsgMulti;
  parse_CMsgClientLogonResponse : bytes -> CMsgClientLogonResponse;
  parse_CMsgClientUpdateMachineAuth : bytes -> CMsgClientUpdateMachineAuth;
  parse_CMsgClientPersonaState : bytes -> CMsgClientPersonaState;
  serialize_CMsgClientHeartBeat : bytes;
  (* the wire form of a response whose [sha_file] is the argument *)
  serialize_CMsgClientUpdateMachineAuthResponse : bytes -> bytes;
  SHA1 : bytes -> bytes;
  crc32 : bytes -> Z;
  RAND_bytes : nat -> bytes;
  RSA_public_encrypt : bytes -> bytes;
  archive_read_open_memory : bytes -> option (list archive_entry)
}.

(** ** The handler *)

Section Handlers.

Variable L : SteamLanguage.
Variable P : Providers.

(** [SteamClient::ReadMessage(data, length)] is defined in another file of
    the repository: it takes one framed message and hands it to the
    dispatcher.  The handler is studied for every such function. *)
Variable ReadMessage : bytes -> Action.

(** The same function called on a range that runs past the end of the
    buffer that it points into: [ReadPast seen length] for the bytes
    [seen] that the buffer holds from the pointer on and the [length]
    that is passed, which is more than there are.  What the function
    finds after the buffer is known to nobody here, and the handler is
    studied for everything that it may do. *)
Variable ReadPast : bytes -> Z -> Action.

(** The loop over a batch need not end: a length word can send its
    offset back.  The model follows the loop for one round more than
    the buffer has bytes, and for [rounds] rounds more, whatever
    [rounds] is.  A call that comes to an end within some [rounds] ends
    in the same way within any more, and what holds for every [rounds]
    holds of the loop. *)
Variable rounds : nat.

(** Whether the file is compiled with [NDEBUG]. *)
Variable NDEBUG : bool.

(** [assert(cond)]; [None] is a condition whose evaluation reads outside
    the buffer. *)
Definition assert (cond : option bool) : Action :=
  if NDEBUG then ret
  else match cond with
       | Some true => ret
       | Some false => stop Aborted
       | None => stop BadRead
       end.

(** The rest of a case, run with the client as it is now. *)
Definition with_client (k : SteamClient -> Action) : Action :=
  fun c => k c c.

(** [case EMsg::ChannelEncryptRequest] (lines 30-63).  [enc_request] is
    never read.  [WriteMessage] runs [fill] on the buffer that it sends;
    it is called without a job id and takes the default of its
    declaration, 0 (no job).  [sessionKey] is declared in [steam++.h];
    the specification gives it 32 bytes. *)
Definition handle_ChannelEncryptRequest : Action :=
  let key := RAND_bytes P 32 in
  let crypted_sess_key := RSA_public_encrypt P key in
  let crc := crc32 P crypted_sess_key in
  modify (set_sessionKey key) ;;
  call (WriteMessage ChannelEncryptResponse false
          (new_MsgChannelEncryptResponse L ++ crypted_sess_key
             ++ le_split 4 crc ++ le_split 4 0)
          0).

(** [case EMsg::ChannelEncryptResult] (lines 65-77). *)
Definition handle_ChannelEncryptResult (data : bytes) : Action :=
  assert (option_map (fun result => result =? EResult_OK L)
            (Mem.read_u32 data (MsgChannelEncryptResult_result L))) ;;
  modify (set_encrypted true) ;;
  with_client (fun c => when onHandshake c then call OnHandshake).

(** Lines 87-115: the container is read into a new buffer of
    [size_unzipped] bytes.  [archive_read_data] copies at most that many
    bytes of the entry; the buffer holds no more than what was copied
    (the rest of it is uninitialised and reading it is a [BadRead]).
    When no header could be read there is no entry to copy from. *)
Definition decompress (size_unzipped : Z) (payload : bytes)
  : bytes + Outcome :=
  let opened := archive_read_open_memory P payload in
  (* assert(result == ARCHIVE_OK), after archive_read_open_memory *)
  if negb NDEBUG && match opened with Some _ => false | None => true end
  then inr Aborted else
  match (match opened with Some es => es | None => [] end) with
  | [] =>
      (* assert(result == ARCHIVE_OK), after archive_read_next_header *)
      if negb NDEBUG then inr Aborted else inl []
  | entry :: more =>
      if negb NDEBUG
         && negb (String.eqb (archive_entry_pathname entry) "z")
      then inr Aborted else
      if negb NDEBUG && negb (archive_entry_size entry =? size_unzipped)
      then inr Aborted else
      let buffer := firstn (Z.to_nat size_unzipped) (entry_data entry) in
      let length := Z.of_nat (List.length buffer) in
      if negb NDEBUG && negb (length =? size_unzipped)
      then inr Aborted else
      (* assert(archive_read_next_header(...) == ARCHIVE_EOF) *)
      if negb NDEBUG && match more with [] => false | _ => true end
      then inr Aborted else
      inl buffer
  end.

(** [ReadMessage(data + start, size)] (line 120).  The handler compares
    the range with nothing: a range that lies in the buffer is a framed
    message, and any other is handed over all the same. *)
Definition ReadMessage_at (data : bytes) (start size : Z) : Action :=
  match Mem.slice data start size with
  | Some body => ReadMessage body
  | None => seen <- Mem.view data start ;; ReadPast seen size
  end.

(** Lines 118-122, the loop over the sub-messages.  [offset] is an
    [unsigned] and [4 + subSize] a [std::uint32_t] sum: both wrap.  The
    handler itself reads the length word only. *)
Fixpoint walk (fuel : nat) (data : bytes) (payload_size offset : Z)
  : Action :=
  match fuel with
  | O => stop Diverged
  | S fuel' =>
      if offset <? payload_size then
        subSize <- Mem.read_u32 data offset ;;
        ReadMessage_at data (offset + 4) subSize ;;
        walk fuel' data payload_size
             (Mem.wrap32 (offset + Mem.wrap32 (4 + subSize)))
      else ret
  end.

(** [case EMsg::Multi] (lines 79-129).  A loop whose offset grows
    with every round ends within one round more than the buffer has
    bytes; a loop whose offset comes back to where it was goes round
    until a [ReadMessage] does not return, and is followed for [rounds]
    rounds more.  The [delete[]] of the decompressed buffer (lines
    124-126) changes nothing that is seen here. *)
Definition handle_Multi (data : bytes) : Action :=
  let msg_multi := parse_CMsgMulti P data in
  let size_unzipped := size_unzipped msg_multi in
  let payload := message_body msg_multi in
  let payload_size :=
    if size_unzipped =? 0 then Z.of_nat (length payload)
    else size_unzipped in
  match (if 0 <? size_unzipped then decompress size_unzipped payload
         else inl payload) with
  | inl data' => walk (rounds + S (length data')) data' payload_size 0
  | inr o => stop o
  end.

(** [case EMsg::ClientLogOnResponse] (lines 131-153).  The timer's
    action is one [WriteMessage(EMsg::ClientHeartBeat, true, ...)]. *)
Definition handle_ClientLogOnResponse (data : bytes) : Action :=
  let logon_resp := parse_CMsgClientLogonResponse P data in
  let eresult := eresult logon_resp in
  let interval := out_of_game_heartbeat_seconds logon_resp in
  with_client (fun c =>
    when onLogOn c then call (OnLogOn eresult (steamID c))) ;;
  when eresult =? EResult_OK L then
    call (setInterval ClientHeartBeat true
            (serialize_CMsgClientHeartBeat P) interval).

(** [case EMsg::ClientUpdateMachineAuth] (lines 155-177).
    [set_sha_file(sha, 20)] copies 20 bytes from [sha]. *)
Definition handle_ClientUpdateMachineAuth (data : bytes) (job_id : Z)
  : Action :=
  with_client (fun c =>
    if negb (onSentry c) then ret else
    let machine_auth := parse_CMsgClientUpdateMachineAuth P data in
    let blob := auth_bytes machine_auth in
    call (CallSHA1 blob) ;;
    let sha := SHA1 P blob in
    call (WriteMessage ClientUpdateMachineAuthResponse true
            (serialize_CMsgClientUpdateMachineAuthResponse P
               (firstn 20 sha))
            job_id) ;;
    call (OnSentry sha)).

(** [case EMsg::ClientPersonaState] (lines 179-195). *)
Definition handle_ClientPersonaState (data : bytes) : Action :=
  with_client (fun c =>
    if negb (onUserInfo c) then ret else
    let state := parse_CMsgClientPersonaState P data in
    assert (Some (Z.of_nat (length (friends state)) =? 1)) ;;
    user <- nth_error (friends state) 0 ;;
    name <- Mem.c_string (Mem.std_string (player_name user)) ;;
    call (OnUserInfo (friendid user) (steamid_source user) name)).

(** [case EMsg::ClientChatMsg] (lines 197-219).  The arguments of the
    call are evaluated from the last to the first, as g++ does: the
    text, then the two fields of the header.  With a null in the range
    the callback is given [begin] itself, and the range runs to the end
    of the buffer.

    A payload shorter than the header gives [end] before [begin].  The
    [std::find] of libstdc++ takes no step on such a range and answers
    [end]; [std::string(begin, end - begin)] is then asked for a length
    that is negative, which as a [size_t] is above [max_size()], and
    throws [std::length_error] before a field is read. *)
Definition handle_ClientChatMsg (data : bytes) : Action :=
  with_client (fun c =>
    if negb (onChatMsg c) then ret else
    let size := sizeof_MsgClientChatMsg L in
    if Z.of_nat (length data) <? size then stop Thrown else
    range <- Mem.slice data size (Z.of_nat (length data) - size) ;;
    text <- match Mem.find_nul range with
            | None => Mem.c_string (Mem.std_string range)
            | Some _ => Mem.c_string range
            end ;;
    steamIdChatter <-
      Mem.read_u64 data (MsgClientChatMsg_steamIdChatter L) ;;
    steamIdChatRoom <-
      Mem.read_u64 data (MsgClientChatMsg_steamIdChatRoom L) ;;
    call (OnChatMsg steamIdChatRoom steamIdChatter text)).

(** [case EMsg::ClientChatEnter] (lines 221-243).  The [while] loop on
    [members] reads the name up to its null and leaves [members] one
    byte after it. *)
Definition handle_ClientChatEnter (data : bytes) : Action :=
  with_client (fun c =>
    if negb (onChatEnter c) then ret else
    let size := sizeof_MsgClientChatEnter L in
    member_count <- Mem.read_u32 data size ;;
    name_view <- Mem.view data (size + 4) ;;
    chat_name <- Mem.c_string name_view ;;
    members <-
      Mem.view data (size + 4 + Z.of_nat (length chat_name) + 1) ;;
    steamIdChat <- Mem.read_u64 data (MsgClientChatEnter_steamIdChat L) ;;
    enterResponse <-
      Mem.read_u32 data (MsgClientChatEnter_enterResponse L) ;;
    call (OnChatEnter steamIdChat enterResponse chat_name member_count
            members)).

(** [case EMsg::ClientChatMemberInfo] (lines 245-265). *)
Definition handle_ClientChatMemberInfo (data : bytes) : Action :=
  with_client (fun c =>
    if negb (onChatStateChange c) then ret else
    type <- Mem.read_u32 data (MsgClientChatMemberInfo_type L) ;;
    if negb (type =? EChatInfoType_StateChange L) then ret else
    let payload := sizeof_MsgClientChatMemberInfo L in
    acted_on <- Mem.read_u64 data payload ;;
    state_change <- Mem.read_u32 data (payload + 8) ;;
    acted_by <- Mem.read_u64 data (payload + 8 + 4) ;;
    member <- Mem.view data (payload + 8 + 4 + 8) ;;
    steamIdChat <-
      Mem.read_u64 data (MsgClientChatMemberInfo_steamIdChat L) ;;
    call (OnChatStateChange steamIdChat acted_by acted_on state_change
            member)).

(** [SteamClient::HandleMessage(emsg, data, length, job_id)] with
    [length = length data]. *)
Definition HandleMessage (emsg : EMsg) (data : bytes) (job_id : Z)
  : Action :=
  match emsg with
  | ChannelEncryptRequest => handle_ChannelEncryptRequest
  | ChannelEncryptResult => handle_ChannelEncryptResult data
  | Multi => handle_Multi data
  | ClientLogOnResponse => handle_ClientLogOnResponse data
  | ClientUpdateMachineAuth => handle_ClientUpdateMachineAuth data job_id
  | ClientPersonaState => handle_ClientPersonaState data
  | ClientChatMsg => handle_ClientChatMsg data
  | ClientChatEnter => handle_ClientChatEnter data
  | ClientChatMemberInfo => handle_ClientChatMemberInfo data
  | _ => ret
  end.

End Handlers.

(** ** The batch format, as the specification words it *)

(** One sub-envelope record: [{u32 length}{length bytes}]. *)
Definition sub_envelope (body : bytes) : bytes :=
  le_split 4 (Z.of_nat (length body)) ++ body.

(** A well-formed batch payload: the records one after the other. *)
Definition batch_of (bodies : list bytes) : bytes :=
  flat_map sub_envelope bodies.

(** One dispatch per body, in order; a dispatch that does not return
    ends the process, or at least the handler, there. *)
Fixpoint dispatch_all (dispatch : bytes -> Action) (bodies : list bytes)
  : Action :=
  match bodies with
  | [] => ret
  | body :: rest => dispatch body ;; dispatch_all dispatch rest
  end.

(** The action [a] made [n] times over, for as long as it returns. *)
Fixpoint again (n : nat) (a : Action) : Action :=
  match n with
  | O => ret
  | S n' => a ;; again n' a
  end.

(** The text a chat callback is to be given for the trailing region
    [region]: what precedes the first null, or all of it. *)
Inductive chat_text (region : bytes) : bytes -> Prop :=
| text_to_nul : forall before after,
    region = before ++ Byte.x00 :: after ->
    ~ In Byte.x00 before ->
    chat_text region before
| text_whole :
    ~ In Byte.x00 region ->
    chat_text region region.

(** The container that the specification accepts for a batch of declared
    size [size]: one entry and no more, named "z", of that declared size,
    with the [size] bytes of data that are asked of it. *)
Definition conforming_container (size : Z)
  (opened : option (list archive_entry)) : Prop :=
  exists entry,
    opened = Some [entry]
    /\ archive_entry_pathname entry = "z"%string
    /\ archive_entry_size entry = size
    /\ size <= Z.of_nat (length (entry_data entry)).

(** The buffer of sub-envelopes that a batch message carries: its
    payload when it declares no uncompressed size, and else the data of
    the one entry of a conforming container, which has the declared
    size. *)
Definition carries (P : Providers) (data buffer : bytes) : Prop :=
  let msg_multi := parse_CMsgMulti P data in
  (size_unzipped msg_multi = 0 /\ message_body msg_multi = buffer)
  \/ (0 < size_unzipped msg_multi
      /\ exists entry,
          archive_read_open_memory P (message_body msg_multi)
          = Some [entry]
          /\ archive_entry_pathname entry = "z"%string
          /\ archive_entry_size entry = size_unzipped msg_multi
          /\ entry_data entry = buffer
          /\ Z.of_nat (length buffer) = size_unzipped msg_multi).

(** The client after the calls [calls], made in this order. *)
Definition record_all (calls : list Call) (c : SteamClient)
  : SteamClient :=
  fold_left (fun c e => record e c) calls c.

(** The client after the answer to an encryption request: the session
    key is drawn and the response, which ends with the checksum of the
    encrypted key and four zero bytes, is sent. *)
Definition encrypt_request_answered (L : SteamLanguage) (P : Providers)
  (c : SteamClient) : SteamClient :=
  record
    (WriteMessage ChannelEncryptResponse false
       (new_MsgChannelEncryptResponse L
          ++ RSA_public_encrypt P (RAND_bytes P 32)
          ++ le_split 4 (crc32 P (RSA_public_encrypt P (RAND_bytes P 32)))
          ++ le_split 4 0)
       0)
    (set_sessionKey (RAND_bytes P 32) c).

(** The client after a handshake that succeeded. *)
Definition handshake_done (c : SteamClient) : SteamClient :=
  (if onHandshake c then record OnHandshake else fun c' => c')
    (set_encrypted true c).

(** ** SHA-1 (FIPS 180-4), to run the handler with a real digest *)

Module Sha1.

Definition be_split (n : nat) (z : Z) : bytes := rev (le_split n z).
Definition be_combine (l : bytes) : Z := le_combine (rev l).

Definition add32 (a b : Z) : Z := (a + b) mod 2 ^ 32.
Definition rotl (n x : Z) : Z :=
  Z.lor (Z.shiftl x n mod 2 ^ 32) (Z.shiftr x (32 - n)).
Definition not32 (x : Z) : Z := Z.lxor x (2 ^ 32 - 1).

Definition pad (msg : bytes) : bytes :=
  let len := Z.of_nat (length msg) in
  msg ++ [Byte.x80]
      ++ repeat Byte.x00 (Z.to_nat ((55 - len) mod 64))
      ++ be_split 8 (8 * len).

Fixpoint chunks (fuel n : nat) (l : bytes) : list bytes :=
  match fuel, l with
  | O, _ | _, [] => []
  | S fuel', _ => firstn n l :: chunks fuel' n (skipn n l)
  end.

Fixpoint extend (k : nat) (w : list Z) : list Z :=
  match k with
  | O => w
  | S k' =>
      let t := length w in
      let at_ i := nth (t - i) w 0 in
      extend k'
        (w ++ [rotl 1 (Z.lxor (Z.lxor (at_ 3%nat) (at_ 8%nat))
                              (Z.lxor (at_ 14%nat) (at_ 16%nat)))])
  end.

Definition State := (Z * Z * Z * Z * Z)%type.

Definition round (s : State) (tw : nat * Z) : State :=
  let '(a, b, c, d, e) := s in
  let '(t, w) := tw in
  let '(f, k) :=
    if (t <? 20)%nat
    then (Z.lor (Z.land b c) (Z.land (not32 b) d), 0x5A827999)
    else if (t <? 40)%nat
    then (Z.lxor (Z.lxor b c) d, 0x6ED9EBA1)
    else if (t <? 60)%nat
    then (Z.lor (Z.lor (Z.land b c) (Z.land b d)) (Z.land c d),
          0x8F1BBCDC)
    else (Z.lxor (Z.lxor b c) d, 0xCA62C1D6) in
  (add32 (add32 (add32 (add32 (rotl 5 a) f) e) k) w, a, rotl 30 b, c, d).

Definition block (h : State) (blk : bytes) : State :=
  let w := extend 64 (map be_combine (chunks 16 4 blk)) in
  let '(a, b, c, d, e) := fold_left round (combine (seq 0 80) w) h in
  let '(h0, h1, h2, h3, h4) := h in
  (add32 h0 a, add32 h1 b, add32 h2 c, add32 h3 d, add32 h4 e).

Definition init : State :=
  (0x67452301, 0xEFCDAB89, 0x98BADCFE, 0x10325476, 0xC3D2E1F0).

Definition digest (msg : bytes) : bytes :=
  let padded := pad msg in
  let '(h0, h1, h2, h3, h4) :=
    fold_left block (chunks (length padded) 64 padded) init in
  be_split 4 h0 ++ be_split 4 h1 ++ be_split 4 h2 ++ be_split 4 h3
    ++ be_split 4 h4.

End Sha1.

(** ** An instance, to run the handler *)

Module Sample.

(** A layout for the examples, packed as the structs of the protocol
    are: protocol version and universe; one [u32] result; chatter, room
    and message type; the 41 bytes of a chat-enter header with the
    response last; chat room and info type. *)
Definition language : SteamLanguage := {|
  EResult_OK := 1;
  EChatInfoType_StateChange := 1;
  sizeof_MsgChannelEncryptRequest := 8;
  new_MsgChannelEncryptResponse := le_split 4 1 ++ le_split 4 128;
  sizeof_MsgChannelEncryptResult := 4;
  MsgChannelEncryptResult_result := 0;
  sizeof_MsgClientChatMsg := 20;
  MsgClientChatMsg_steamIdChatRoom := 8;
  MsgClientChatMsg_steamIdChatter := 0;
  sizeof_MsgClientChatEnter := 41;
  MsgClientChatEnter_steamIdChat := 0;
  MsgClientChatEnter_enterResponse := 37;
  sizeof_MsgClientChatMemberInfo := 12;
  MsgClientChatMemberInfo_steamIdChat := 0;
  MsgClientChatMemberInfo_type := 8
|}.

Definition u32_or (default : Z) (data : bytes) (off : Z) : Z :=
  match Mem.read_u32 data off with
  | Some v => v
  | None => default
  end.

(** Friend records of three bytes: identifier, source, a one-letter
    name. *)
Fixpoint friends_of (l : bytes) : list Friend :=
  match l with
  | i :: s :: n :: rest =>
      {| friendid := byte.unsigned i;
         steamid_source := byte.unsigned s;
         player_name := [n] |} :: friends_of rest
  | _ => []
  end.

(** A container of entries [name; declared size; n; n bytes of data]. *)
Fixpoint entries_of (fuel : nat) (l : bytes)
  : option (list archive_entry) :=
  match fuel, l with
  | _, [] => Some []
  | S fuel', name :: size :: n :: rest =>
      let n := Z.to_nat (byte.unsigned n) in
      if (n <=? length rest)%nat then
        option_map
          (cons {| archive_entry_pathname :=
                     String (Ascii.ascii_of_byte name) EmptyString;
                   archive_entry_size := byte.unsigned size;
                   entry_data := firstn n rest |})
          (entries_of fuel' (skipn n rest))
      else None
  | _, _ => None
  end.

(** Stand-ins for the codecs, with a wire form simple enough to write
    by hand: a batch is its [u32] size and then its body; a logon
    response is two [u32]. *)
Definition providers : Providers := {|
  parse_CMsgMulti data :=
    {| size_unzipped := u32_or 0 data 0; message_body := skipn 4 data |};
  parse_CMsgClientLogonResponse data :=
    {| eresult := u32_or 2 data 0;
       out_of_game_heartbeat_seconds := u32_or 0 data 4 |};
  parse_CMsgClientUpdateMachineAuth data := {| auth_bytes := data |};
  parse_CMsgClientPersonaState data := {| friends := friends_of data |};
  serialize_CMsgClientHeartBeat := [];
  serialize_CMsgClientUpdateMachineAuthResponse sha := sha;
  SHA1 := Sha1.digest;
  crc32 data := fold_left (fun s b => (s + byte.unsigned b) mod 2 ^ 32)
                          data 0;
  RAND_bytes n := repeat Byte.x2a n;
  RSA_public_encrypt key := rev key;
  archive_read_open_memory data := entries_of (length data) data
|}.

(** A client with every callback set, and one with none. *)
Definition listening : SteamClient :=
  mkClient false [] 76561197960265728 true true true true true true true
           [].

Definition deaf : SteamClient :=
  mkClient false [] 76561197960265728 false false false false false false
           false [].

(** A dispatcher of one level of nesting: the first byte of a
    sub-message tells its kind. *)
Definition ReadMessage (NDEBUG : bool) (body : bytes) : Action :=
  match body with
  | [] => ret
  | kind :: data =>
      HandleMessage language providers (fun _ => ret) (fun _ _ => ret) 0
        NDEBUG
        (match byte.unsigned kind with
         | 1 => ClientUpdateMachineAuth
         | 2 => ClientChatMsg
         | 3 => ChannelEncryptResult
         | v => OtherEMsg v
         end)
        data 0
  end.

(** On a range that leaves the buffer this dispatcher returns at once,
    with no call. *)
Definition ReadPast (seen : bytes) (length : Z) : Action := ret.

Definition ascii_bytes (s : string) : bytes := list_byte_of_string s.

(** A machine-auth update as a sub-message of a batch. *)
Definition auth_sub (blob : string) : bytes :=
  Byte.x01 :: ascii_bytes blob.

(** Two sub-messages, of 3 and 5 bytes. *)
Definition two_subs : list bytes := [auth_sub "ab"; auth_sub "cdef"].

End Sample.

(** ** What a handler may change *)

(** [c'] is [c] after some calls and nothing else: every member of the
    client is as it was. *)
Definition only_calls (c c' : SteamClient) : Prop :=
  exists calls, c' = record_all calls c.

(** What no message changes: the identifier and the callbacks stay, a
    set encrypted flag stays set, and the history of calls is only
    added to. *)
Record keeps (c c' : SteamClient) : Prop := {
  keeps_steamID : steamID c' = steamID c;
  keeps_onHandshake : onHandshake c' = onHandshake c;
  keeps_onLogOn : onLogOn c' = onLogOn c;
  keeps_onSentry : onSentry c' = onSentry c;
  keeps_onUserInfo : onUserInfo c' = onUserInfo c;
  keeps_onChatMsg : onChatMsg c' = onChatMsg c;
  keeps_onChatEnter : onChatEnter c' = onChatEnter c;
  keeps_onChatStateChange : onChatStateChange c' = onChatStateChange c;
  keeps_encrypted : encrypted c = true -> encrypted c' = true;
  keeps_log : exists calls, log c' = log c ++ calls
}.

(** The message kinds that the handler drops for the client [c]
    without a look at the payload: those that are no case of the
    [switch], and those whose case returns for want of a callback. *)
Definition dropped (c : SteamClient) (emsg : EMsg) : bool :=
  match emsg with
  | ChannelEncryptRequest | ChannelEncryptResult | Multi
  | ClientLogOnResponse => false
  | ClientUpdateMachineAuth => negb (onSentry c)
  | ClientPersonaState => negb (onUserInfo c)
  | ClientChatMsg => negb (onChatMsg c)
  | ClientChatEnter => negb (onChatEnter c)
  | ClientChatMemberInfo => negb (onChatStateChange c)
  | ChannelEncryptResponse | ClientHeartBeat
  | ClientUpdateMachineAuthResponse | OtherEMsg _ => true
  end.

(** The kinds whose case works on the handshake or dispatches further
    messages; every other case only decodes and calls. *)
Definition decodes_only (emsg : EMsg) : bool :=
  match emsg with
  | ChannelEncryptRequest | ChannelEncryptResult | Multi => false
  | _ => true
  end.

(** An action after which the client is always related by [R] to the
    client before it, however the action ends. *)
Definition preserves (R : SteamClient -> SteamClient -> Prop)
  (a : Action) : Prop :=
  forall c, R c (snd (a c)).

(** * Properties *)

Ltac conjuncts := repeat match goal with |- _ /\ _ => split end.
Ltac by_evaluation :=
  conjuncts; first [vm_compute; reflexivity | vm_compute; discriminate].

(** ** Reads *)

Section MemFacts.

Import Mem.

Lemma slice_middle (pre mid post : bytes) :
  slice (pre ++ mid ++ post) (Z.of_nat (length pre))
        (Z.of_nat (length mid)) = Some mid.
Proof.
  unfold slice.
  rewrite !length_app, !Nat2Z.id.
  replace ((0 <=? Z.of_nat (length pre)) && (0 <=? Z.of_nat (length mid))
           && (Z.of_nat (length pre) + Z.of_nat (length mid)
               <=? Z.of_nat (length pre + (length mid + length post))))
    with true
    by (symmetry; rewrite !andb_true_iff, !Z.leb_le; lia).
  rewrite skipn_app, skipn_all, Nat.sub_diag. cbn [skipn app].
  rewrite firstn_app, firstn_all, Nat.sub_diag. cbn [firstn].
  now rewrite app_nil_r.
Qed.

Lemma slice_length (buf : bytes) (off len : Z) (l : bytes) :
  slice buf off len = Some l ->
  0 <= off /\ 0 <= len /\ off + len <= Z.of_nat (length buf)
  /\ Z.of_nat (length l) = len.
Proof.
  unfold slice.
  destruct ((0 <=? off) && (0 <=? len)
            && (off + len <=? Z.of_nat (length buf))) eqn:E;
    [|discriminate].
  rewrite !andb_true_iff, !Z.leb_le in E.
  intros [= <-]. rewrite length_firstn, length_skipn. lia.
Qed.

Lemma slice_none (buf : bytes) (off len : Z) :
  slice buf off len = None <->
  off < 0 \/ len < 0 \/ Z.of_nat (length buf) < off + len.
Proof.
  unfold slice.
  destruct ((0 <=? off) && (0 <=? len)
            && (off + len <=? Z.of_nat (length buf))) eqn:E.
  - rewrite !andb_true_iff, !Z.leb_le in E. split; [discriminate|lia].
  - rewrite !andb_false_iff, !Z.leb_gt in E. split; [lia|reflexivity].
Qed.

Lemma read_u32_middle (pre post : bytes) (n : Z) :
  0 <= n < 2 ^ 32 ->
  read_u32 (pre ++ le_split 4 n ++ post) (Z.of_nat (length pre)) = Some n.
Proof.
  intros Hn. unfold read_u32.
  pose proof (slice_middle pre (le_split 4 n) post) as E.
  rewrite length_le_split in E. change (Z.of_nat 4) with 4 in E.
  rewrite E. cbn [option_map].
  rewrite le_combine_split. f_equal. apply Z.mod_small.
  change (Z.of_nat 4 * 8) with 32. lia.
Qed.


Lemma read_u32_none (buf : bytes) (off : Z) :
  read_u32 buf off = None <-> off < 0 \/ Z.of_nat (length buf) < off + 4.
Proof.
  unfold read_u32. destruct (slice buf off 4) eqn:E.
  - apply slice_length in E. split; [discriminate|lia].
  - apply slice_none in E. split; [lia|reflexivity].
Qed.

Lemma read_in_field (buf : bytes) (off width size : Z) :
  field_in off width size -> 0 <= width ->
  size <= Z.of_nat (length buf) ->
  exists l, slice buf off width = Some l.
Proof.
  intros [? ?] ? ?. destruct (slice buf off width) eqn:E; [eauto|].
  apply slice_none in E. lia.
Qed.

End MemFacts.

Lemma slice_skipn (buf : bytes) (off len : Z) (l : bytes) :
  Mem.slice buf off len = Some l ->
  skipn (Z.to_nat off) buf = l ++ skipn (Z.to_nat (off + len)) buf.
Proof.
  intros E. pose proof (slice_length _ _ _ _ E) as (Hoff & Hlen & _ & _).
  unfold Mem.slice in E.
  destruct ((0 <=? off) && (0 <=? len)
            && (off + len <=? Z.of_nat (length buf))); [|discriminate].
  injection E as <-.
  rewrite Z2Nat.inj_add, Nat.add_comm, <- skipn_skipn by assumption.
  symmetry. apply firstn_skipn.
Qed.

Lemma view_app (pre post : bytes) :
  Mem.view (pre ++ post) (Z.of_nat (length pre)) = Some post.
Proof.
  unfold Mem.view. rewrite length_app, Nat2Z.id.
  replace ((0 <=? Z.of_nat (length pre))
           && (Z.of_nat (length pre)
               <=? Z.of_nat (length pre + length post)))
    with true by (symmetry; rewrite andb_true_iff, !Z.leb_le; lia).
  now rewrite skipn_app, skipn_all, Nat.sub_diag.
Qed.

(** ** The walk over the records of a batch *)

Lemma and_then_ret (a : Action) (c : SteamClient) : (a ;; ret) c = a c.
Proof. unfold and_then, ret. now destruct (a c) as [[] c']. Qed.

Lemma and_then_assoc (a b k : Action) (c : SteamClient) :
  ((a ;; b) ;; k) c = (a ;; b ;; k) c.
Proof. unfold and_then. now destruct (a c) as [[] c']. Qed.

Lemma and_then_cong (a k1 k2 : Action) (c : SteamClient) :
  (forall c', k1 c' = k2 c') -> (a ;; k1) c = (a ;; k2) c.
Proof. intros H. unfold and_then. now destruct (a c) as [[] c']. Qed.

(** A loop that is made of [again] and is left by no round. *)
Lemma again_stops (n : nat) (a : Action) (o : Outcome) (c : SteamClient) :
  o <> Returned -> fst ((again n a ;; stop o) c) <> Returned.
Proof.
  intros Ho. revert c.
  induction n as [|n IH]; intros c; cbn [again].
  - exact Ho.
  - rewrite and_then_assoc. unfold and_then at 1.
    destruct (a c) as [[] c']; try discriminate. apply IH.
Qed.

Section WalkFacts.

Variable ReadMessage : bytes -> Action.
Variable ReadPast : bytes -> Z -> Action.

Lemma sub_envelope_length (body : bytes) :
  length (sub_envelope body) = (4 + length body)%nat.
Proof. unfold sub_envelope. now rewrite length_app, length_le_split. Qed.

Lemma batch_of_length (bodies : list bytes) :
  (4 * length bodies <= length (batch_of bodies))%nat.
Proof.
  induction bodies as [|b bs IH]; cbn [batch_of flat_map length]; [lia|].
  fold (batch_of bs). rewrite length_app, sub_envelope_length. lia.
Qed.

(** One round on a whole record. *)
Lemma walk_step (fuel : nat) (data pre body post : bytes)
  (c : SteamClient) :
  data = pre ++ sub_envelope body ++ post ->
  Z.of_nat (length data) < 2 ^ 32 ->
  walk ReadMessage ReadPast (S fuel) data (Z.of_nat (length data))
       (Z.of_nat (length pre)) c
  = (ReadMessage body ;;
     walk ReadMessage ReadPast fuel data (Z.of_nat (length data))
          (Z.of_nat (length pre + length (sub_envelope body)))) c.
Proof.
  intros Hdata Hsize. cbn [walk].
  assert (Hlen : length data
                 = (length pre + (4 + length body) + length post)%nat).
  { rewrite Hdata, !length_app, sub_envelope_length. lia. }
  replace (Z.of_nat (length pre) <? Z.of_nat (length data)) with true
    by (symmetry; apply Z.ltb_lt; lia).
  assert (Hread : Mem.read_u32 data (Z.of_nat (length pre))
                  = Some (Z.of_nat (length body))).
  { rewrite Hdata. unfold sub_envelope. rewrite <- app_assoc.
    apply read_u32_middle. lia. }
  rewrite Hread. cbn [reading].
  assert (Hbody : Mem.slice data (Z.of_nat (length pre) + 4)
                            (Z.of_nat (length body)) = Some body).
  { rewrite Hdata. unfold sub_envelope. rewrite <- app_assoc.
    rewrite (app_assoc pre).
    replace (Z.of_nat (length pre) + 4)
      with (Z.of_nat (length (pre ++ le_split 4 (Z.of_nat (length body)))))
      by (rewrite length_app, length_le_split; lia).
    apply slice_middle. }
  unfold ReadMessage_at. rewrite Hbody.
  replace (Mem.wrap32 (Z.of_nat (length pre)
                       + Mem.wrap32 (4 + Z.of_nat (length body))))
    with (Z.of_nat (length pre + length (sub_envelope body)));
    [reflexivity|].
  rewrite sub_envelope_length. unfold Mem.wrap32.
  rewrite (Z.mod_small (4 + _)) by lia. rewrite Z.mod_small by lia. lia.
Qed.

(** As many rounds as there are whole records dispatch them in order
    and leave the walk at the end of the last one. *)
Lemma walk_records (data : bytes) (bodies : list bytes) :
  forall (pre post : bytes) (fuel : nat) (c : SteamClient),
    data = pre ++ batch_of bodies ++ post ->
    Z.of_nat (length data) < 2 ^ 32 ->
    walk ReadMessage ReadPast (length bodies + fuel) data
         (Z.of_nat (length data)) (Z.of_nat (length pre)) c
    = (dispatch_all ReadMessage bodies ;;
       walk ReadMessage ReadPast fuel data (Z.of_nat (length data))
            (Z.of_nat (length pre + length (batch_of bodies)))) c.
Proof.
  induction bodies as [|body rest IH]; intros pre post fuel c Hdata Hsize.
  - cbn [batch_of flat_map dispatch_all length Nat.add].
    now rewrite Nat.add_0_r.
  - cbn [batch_of flat_map dispatch_all length Nat.add] in *.
    fold (batch_of rest) in *.
    rewrite (walk_step _ data pre body (batch_of rest ++ post));
      [|now rewrite Hdata, <- app_assoc|assumption].
    rewrite and_then_assoc. apply and_then_cong. intros c'.
    rewrite <- length_app.
    rewrite (IH (pre ++ sub_envelope body) post fuel c');
      [|now rewrite Hdata, <- !app_assoc|assumption].
    now rewrite !length_app, Nat.add_assoc.
Qed.

(** The round that finds fewer bytes than a length word has reads the
    word outside the buffer. *)
Lemma walk_partial (fuel : nat) (data pre tail : bytes)
  (c : SteamClient) :
  data = pre ++ tail ->
  tail <> [] ->
  (length tail < 4)%nat ->
  walk ReadMessage ReadPast (S fuel) data (Z.of_nat (length data))
       (Z.of_nat (length pre)) c
  = (BadRead, c).
Proof.
  intros -> Hne Hshort. cbn [walk].
  assert (0 < length tail)%nat by (destruct tail; [congruence|cbn; lia]).
  replace (_ <? _) with true
    by (symmetry; apply Z.ltb_lt; rewrite length_app; lia).
  replace (Mem.read_u32 _ _) with (@None Z); [reflexivity|].
  symmetry. apply read_u32_none. rewrite length_app. lia.
Qed.

(** The round that finds a record that declares more bytes than are
    left hands the range over as it is declared; the offset is then
    past the end, and the walk at its end. *)
Lemma walk_overrun (fuel : nat) (data pre rest : bytes) (declared : Z)
  (c : SteamClient) :
  data = pre ++ le_split 4 declared ++ rest ->
  Z.of_nat (length rest) < declared ->
  Z.of_nat (length pre) + 4 + declared < 2 ^ 32 ->
  walk ReadMessage ReadPast (S (S fuel)) data (Z.of_nat (length data))
       (Z.of_nat (length pre)) c
  = ReadPast rest declared c.
Proof.
  intros Hdata Hrest Hwrap.
  assert (Hlen : length data = (length pre + 4 + length rest)%nat).
  { rewrite Hdata, !length_app, length_le_split. lia. }
  assert (Hread : Mem.read_u32 data (Z.of_nat (length pre))
                  = Some declared).
  { rewrite Hdata. apply read_u32_middle. lia. }
  assert (Hview : Mem.view data (Z.of_nat (length pre) + 4) = Some rest).
  { rewrite Hdata, app_assoc.
    replace (Z.of_nat (length pre) + 4)
      with (Z.of_nat (length (pre ++ le_split 4 declared)))
      by (rewrite length_app, length_le_split; lia).
    apply view_app. }
  assert (Hslice : Mem.slice data (Z.of_nat (length pre) + 4) declared
                   = None)
    by (apply slice_none; lia).
  cbn [walk].
  replace (Z.of_nat (length pre) <? Z.of_nat (length data)) with true
    by (symmetry; apply Z.ltb_lt; lia).
  rewrite Hread. cbn [reading].
  unfold ReadMessage_at. rewrite Hslice, Hview. cbn [reading].
  replace (Mem.wrap32 (Z.of_nat (length pre) + Mem.wrap32 (4 + declared)))
    with (Z.of_nat (length pre) + 4 + declared)
    by (unfold Mem.wrap32; rewrite (Z.mod_small (4 + _)) by lia;
        rewrite Z.mod_small by lia; lia).
  replace (Z.of_nat (length pre) + 4 + declared <? Z.of_nat (length data))
    with false by (symmetry; apply Z.ltb_ge; lia).
  apply and_then_ret.
Qed.

(** A first record that declares [2 ^ 32 - 4] bytes: [4 + subSize] is 0
    in 32 bits, and every round leaves the offset where it was. *)
Lemma walk_wraps (data rest : bytes) :
  data = le_split 4 (2 ^ 32 - 4) ++ rest ->
  Z.of_nat (length rest) < 2 ^ 32 - 4 ->
  forall (fuel : nat) (c : SteamClient),
    walk ReadMessage ReadPast fuel data (Z.of_nat (length data)) 0 c
    = (again fuel (ReadPast rest (2 ^ 32 - 4)) ;; stop Diverged) c.
Proof.
  intros Hdata Hrest.
  assert (Hlen : length data = (4 + length rest)%nat).
  { rewrite Hdata, length_app, length_le_split. lia. }
  assert (Hread : Mem.read_u32 data 0 = Some (2 ^ 32 - 4)).
  { rewrite Hdata. apply (read_u32_middle [] rest). lia. }
  assert (Hview : Mem.view data (0 + 4) = Some rest).
  { pose proof (view_app (le_split 4 (2 ^ 32 - 4)) rest) as E.
    rewrite length_le_split in E. now rewrite Hdata. }
  assert (Hslice : Mem.slice data (0 + 4) (2 ^ 32 - 4) = None)
    by (apply slice_none; lia).
  induction fuel as [|fuel IH]; intros c; cbn [walk again];
    [reflexivity|].
  replace (0 <? Z.of_nat (length data)) with true
    by (symmetry; apply Z.ltb_lt; lia).
  rewrite Hread. cbn [reading].
  unfold ReadMessage_at. rewrite Hslice, Hview. cbn [reading].
  change (Mem.wrap32 (0 + Mem.wrap32 (4 + (2 ^ 32 - 4)))) with 0.
  rewrite and_then_assoc. apply and_then_cong. exact IH.
Qed.

End WalkFacts.

(** ** The rounds of the walk *)

Section Rounds.

Variable ReadMessage : bytes -> Action.
Variable ReadPast : bytes -> Z -> Action.


(** A walk that has come to an end does the same with more rounds. *)
Lemma walk_rounds_enough (fuel more : nat) :
  forall (data : bytes) (payload_size offset : Z) (c : SteamClient),
    fst (walk ReadMessage ReadPast fuel data payload_size offset c)
    <> Diverged ->
    walk ReadMessage ReadPast (fuel + more) data payload_size offset c
    = walk ReadMessage ReadPast fuel data payload_size offset c.
Proof.
  induction fuel as [|fuel IH]; intros data payload_size offset c;
    cbn [walk Nat.add]; [intros H; now elim H|].
  destruct (offset <? payload_size); [|reflexivity].
  destruct (Mem.read_u32 data offset) as [subSize|]; [|reflexivity].
  cbn [reading]. unfold and_then.
  destruct (ReadMessage_at ReadMessage ReadPast data (offset + 4) subSize c)
    as [[] c']; trivial.
  apply IH.
Qed.

End Rounds.

(** The same for the handler: the end of a call does not depend on the
    number of rounds that are followed, once they suffice. *)
Lemma handler_rounds_enough (L : SteamLanguage) (P : Providers)
  (ReadMessage : bytes -> Action) (ReadPast : bytes -> Z -> Action)
  (rounds more : nat) (NDEBUG : bool) (emsg : EMsg) (data : bytes)
  (job_id : Z) (c : SteamClient) :
  fst (HandleMessage L P ReadMessage ReadPast rounds NDEBUG emsg data
         job_id c)
  <> Diverged ->
  HandleMessage L P ReadMessage ReadPast (rounds + more) NDEBUG emsg data
    job_id c
  = HandleMessage L P ReadMessage ReadPast rounds NDEBUG emsg data job_id c.
Proof.
  destruct emsg; cbn [HandleMessage]; try reflexivity.
  unfold handle_Multi.
  destruct (if 0 <? size_unzipped (parse_CMsgMulti P data)
            then decompress P NDEBUG (size_unzipped (parse_CMsgMulti P data))
                   (message_body (parse_CMsgMulti P data))
            else inl (message_body (parse_CMsgMulti P data)))
    as [buffer|o]; [|reflexivity].
  replace (rounds + more + S (length buffer))%nat
    with (rounds + S (length buffer) + more)%nat by lia.
  apply walk_rounds_enough.
Qed.

(** ** Batches *)

Section Batches.

Variables (L : SteamLanguage) (P : Providers) (ReadMessage : bytes -> Action)
  (ReadPast : bytes -> Z -> Action) (rounds : nat).

(** The walk of the handler over a buffer that is a sequence of whole
    records. *)
Lemma walk_whole_batch (fuel : nat) (bodies : list bytes)
  (c : SteamClient) :
  Z.of_nat (length (batch_of bodies)) < 2 ^ 32 ->
  (length bodies < fuel)%nat ->
  walk ReadMessage ReadPast fuel (batch_of bodies)
       (Z.of_nat (length (batch_of bodies))) 0 c
  = dispatch_all ReadMessage bodies c.
Proof.
  intros Hlen Hfuel.
  replace fuel with (length bodies + S (fuel - S (length bodies)))%nat
    by lia.
  rewrite (walk_records ReadMessage ReadPast (batch_of bodies) bodies [] []);
    [|now rewrite app_nil_r|assumption].
  cbn [walk length Nat.add]. rewrite Z.ltb_irrefl. apply and_then_ret.
Qed.

(** C5. An uncompressed batch ([size_unzipped = 0]) whose payload is
    the concatenation of [{u32 length}{length bytes}] records is handled
    by one [ReadMessage] per record, in the order of the records, each
    with exactly the bytes of its body, and the handler then returns:
    it does what [dispatch_all] does.  (A protobuf payload is shorter
    than 4 GiB.) *)
Theorem multi_uncompressed_dispatch (NDEBUG : bool) (data : bytes)
  (job_id : Z) (bodies : list bytes) (c : SteamClient) :
  size_unzipped (parse_CMsgMulti P data) = 0 ->
  message_body (parse_CMsgMulti P data) = batch_of bodies ->
  Z.of_nat (length (batch_of bodies)) < 2 ^ 32 ->
  HandleMessage L P ReadMessage ReadPast rounds NDEBUG Multi data job_id c
  = dispatch_all ReadMessage bodies c.
Proof.
  intros Hsize Hbody Hlen.
  cbn [HandleMessage]. unfold handle_Multi.
  rewrite Hsize, Hbody. cbn [Z.ltb Z.eqb Z.compare].
  apply walk_whole_batch; [assumption|].
  pose proof (batch_of_length bodies). lia.
Qed.

(** The handler walks over the buffer that the message carries. *)
Lemma multi_walks_buffer (NDEBUG : bool) (data buffer : bytes)
  (job_id : Z) (c : SteamClient) :
  carries P data buffer ->
  HandleMessage L P ReadMessage ReadPast rounds NDEBUG Multi data job_id c
  = walk ReadMessage ReadPast (rounds + S (length buffer)) buffer
         (Z.of_nat (length buffer)) 0 c.
Proof.
  cbn [HandleMessage]. unfold handle_Multi, carries.
  intros [[-> <-]|[Hpos (entry & Hopen & Hname & Hsize & <- & Hlen)]].
  - reflexivity.
  - replace (0 <? size_unzipped (parse_CMsgMulti P data)) with true
      by (symmetry; now apply Z.ltb_lt).
    replace (size_unzipped (parse_CMsgMulti P data) =? 0) with false
      by (symmetry; apply Z.eqb_neq; lia).
    unfold decompress. rewrite Hopen, Hname, Hsize. cbn [String.eqb].
    rewrite <- Hlen, Nat2Z.id, firstn_all, !Z.eqb_refl.
    rewrite Ascii.eqb_refl. cbn [negb andb]. rewrite !andb_false_r.
    reflexivity.
Qed.

(** C3, amended.  A batch whose buffer holds whole records and then
    something that is no whole record is not refused, and nothing in
    the handler raises a framing error.  The whole records are
    dispatched in their order.  When fewer bytes than a length word has
    are left, the handler then reads the word outside the buffer.  When
    a record is left that declares more bytes than follow it, the
    handler hands that range to [ReadMessage] as it is declared, past
    the end of the buffer, and is then at the end of its loop: it ends
    as that call ends, and returns when it returns.  (The declared
    length is taken not to carry the 32-bit offset past [2 ^ 32].) *)
Theorem multi_ill_framed (NDEBUG : bool) (data : bytes) (job_id : Z)
  (bodies : list bytes) (tail : bytes) (c : SteamClient) :
  carries P data (batch_of bodies ++ tail) ->
  Z.of_nat (length (batch_of bodies ++ tail)) < 2 ^ 32 ->
  (tail <> [] ->
   (length tail < 4)%nat ->
   HandleMessage L P ReadMessage ReadPast rounds NDEBUG Multi data job_id c
   = (dispatch_all ReadMessage bodies ;; stop BadRead) c)
  /\ (forall (declared : Z) (rest : bytes),
         tail = le_split 4 declared ++ rest ->
         Z.of_nat (length rest) < declared ->
         Z.of_nat (length (batch_of bodies)) + 4 + declared < 2 ^ 32 ->
         HandleMessage L P ReadMessage ReadPast rounds NDEBUG Multi data job_id
           c
         = (dispatch_all ReadMessage bodies ;; ReadPast rest declared) c).
Proof.
  intros Hcarries Hlen.
  rewrite (multi_walks_buffer _ _ _ _ _ Hcarries).
  pose proof (batch_of_length bodies) as Hcount.
  split.
  - intros Hne Hshort.
    replace (rounds + S (length (batch_of bodies ++ tail)))%nat
      with (length bodies
            + S (rounds + length (batch_of bodies ++ tail)
                 - length bodies))%nat
      by (rewrite length_app; lia).
    rewrite (walk_records ReadMessage ReadPast _ bodies [] tail);
      [|reflexivity|assumption].
    apply and_then_cong. intros c'. cbn [length Nat.add].
    now apply (walk_partial ReadMessage ReadPast _ _ (batch_of bodies) tail).
  - intros declared rest -> Hrest Hwrap.
    replace (rounds
             + S (length (batch_of bodies ++ le_split 4 declared ++ rest)))%nat
      with (length bodies
            + S (S (rounds
                    + length (batch_of bodies ++ le_split 4 declared ++ rest)
                    - length bodies - 1)))%nat
      by (rewrite !length_app, length_le_split; lia).
    rewrite (walk_records ReadMessage ReadPast _ bodies []
               (le_split 4 declared ++ rest));
      [|reflexivity|assumption].
    apply and_then_cong. intros c'. cbn [length Nat.add].
    now apply (walk_overrun ReadMessage ReadPast _ _ (batch_of bodies) rest
                 declared).
Qed.

(** *** Compressed batches *)

Lemma decompress_checked (size : Z) (payload buffer : bytes) :
  0 < size ->
  decompress P false size payload = inl buffer ->
  conforming_container size (archive_read_open_memory P payload).
Proof.
  intros Hpos. unfold decompress, conforming_container.
  destruct (archive_read_open_memory P payload) as [[|entry more]|];
    cbn [negb andb]; try discriminate.
  destruct (String.eqb_spec (archive_entry_pathname entry) "z");
    cbn [negb]; [|discriminate].
  destruct (Z.eqb_spec (archive_entry_size entry) size);
    cbn [negb]; [|discriminate].
  destruct (Z.eqb_spec
              (Z.of_nat
                 (length (firstn (Z.to_nat size) (entry_data entry))))
              size) as [Hread|];
    cbn [negb]; [|discriminate].
  destruct more; [|discriminate].
  intros _. exists entry. repeat split; try assumption.
  rewrite length_firstn in Hread. lia.
Qed.

(** C4, amended.  Every requirement on the container is an [assert].
    A batch that declares an uncompressed size and whose payload is not
    a container of exactly one entry, named "z", of the declared size
    and with that many bytes of data, makes a handler compiled with its
    assertions abort the process: nothing is dispatched and the client
    is as it was. *)
Theorem multi_container_refused (data : bytes) (job_id : Z)
  (c : SteamClient) :
  0 < size_unzipped (parse_CMsgMulti P data) ->
  ~ conforming_container
      (size_unzipped (parse_CMsgMulti P data))
      (archive_read_open_memory P
         (message_body (parse_CMsgMulti P data))) ->
  HandleMessage L P ReadMessage ReadPast rounds false Multi data job_id c
  = (Aborted, c).
Proof.
  intros Hpos Hbad. cbn [HandleMessage]. unfold handle_Multi.
  replace (0 <? size_unzipped (parse_CMsgMulti P data)) with true
    by (symmetry; now apply Z.ltb_lt).
  destruct (decompress P false _ _) as [buffer|o] eqn:E.
  - apply decompress_checked in E; [contradiction|assumption].
  - revert E. unfold decompress.
    destruct (archive_read_open_memory P _) as [[|entry more]|];
      cbn [negb andb];
      repeat match goal with
        | |- context [if ?b then _ else _] => destruct b
        end;
      intros [= <-] || discriminate; reflexivity.
Qed.

(** Compiled with [NDEBUG], the handler checks nothing: when the
    first entry of the container holds a batch of the declared size, it
    dispatches it whatever the name of the entry, whatever its declared
    size and whatever entries follow it. *)
Lemma container_unchecked (data : bytes) (job_id : Z)
  (entry : archive_entry) (more : list archive_entry)
  (bodies : list bytes) (c : SteamClient) :
  0 < size_unzipped (parse_CMsgMulti P data) < 2 ^ 32 ->
  archive_read_open_memory P (message_body (parse_CMsgMulti P data))
  = Some (entry :: more) ->
  entry_data entry = batch_of bodies ->
  Z.of_nat (length (batch_of bodies))
  = size_unzipped (parse_CMsgMulti P data) ->
  HandleMessage L P ReadMessage ReadPast rounds true Multi data job_id c
  = dispatch_all ReadMessage bodies c.
Proof.
  intros [Hpos Hmax] Hopen Hdata Hlen.
  cbn [HandleMessage]. unfold handle_Multi, decompress.
  rewrite Hopen, Hdata. cbn [negb andb].
  replace (0 <? size_unzipped (parse_CMsgMulti P data)) with true
    by (symmetry; now apply Z.ltb_lt).
  replace (size_unzipped (parse_CMsgMulti P data) =? 0) with false
    by (symmetry; apply Z.eqb_neq; lia).
  rewrite <- Hlen, Nat2Z.id, firstn_all.
  apply walk_whole_batch; [lia|].
  pose proof (batch_of_length bodies). lia.
Qed.

End Batches.

Lemma multi_uncompressed_dispatch_witness :
  size_unzipped
    (parse_CMsgMulti Sample.providers
       (le_split 4 0 ++ batch_of Sample.two_subs)) = 0
  /\ HandleMessage Sample.language Sample.providers (Sample.ReadMessage false)
       Sample.ReadPast 0 false Multi (le_split 4 0 ++ batch_of Sample.two_subs)
       0 Sample.listening
     = dispatch_all (Sample.ReadMessage false) Sample.two_subs
         Sample.listening.
Proof.
  split; [reflexivity|].
  apply (multi_uncompressed_dispatch Sample.language Sample.providers
           (Sample.ReadMessage false) Sample.ReadPast 0 false
           (le_split 4 0 ++ batch_of Sample.two_subs) 0 Sample.two_subs);
    reflexivity.
Defined.

(** One whole record and then two stray bytes; one whole record and
    then a record that declares 5 bytes where 1 is left. *)
Lemma multi_ill_framed_witness :
  HandleMessage Sample.language Sample.providers (Sample.ReadMessage false)
    Sample.ReadPast 0 false Multi
    (le_split 4 0 ++ batch_of [Sample.auth_sub "a"] ++ [Byte.x09; Byte.x00]) 0
    Sample.listening
  = (dispatch_all (Sample.ReadMessage false) [Sample.auth_sub "a"] ;;
     stop BadRead) Sample.listening
  /\ HandleMessage Sample.language Sample.providers (Sample.ReadMessage false)
       Sample.ReadPast 0 false Multi
       (le_split 4 0 ++ batch_of [Sample.auth_sub "a"]
          ++ le_split 4 5 ++ [Byte.x01]) 0 Sample.listening
     = (dispatch_all (Sample.ReadMessage false) [Sample.auth_sub "a"] ;;
        Sample.ReadPast [Byte.x01] 5) Sample.listening.
Proof.
  split.
  - destruct (multi_ill_framed Sample.language Sample.providers
                (Sample.ReadMessage false) Sample.ReadPast 0 false
                (le_split 4 0 ++ batch_of [Sample.auth_sub "a"]
                   ++ [Byte.x09; Byte.x00]) 0 [Sample.auth_sub "a"]
                [Byte.x09; Byte.x00] Sample.listening)
      as [Hpartial _];
      [left; split; reflexivity|reflexivity|].
    apply Hpartial; [discriminate|cbn; lia].
  - destruct (multi_ill_framed Sample.language Sample.providers
                (Sample.ReadMessage false) Sample.ReadPast 0 false
                (le_split 4 0 ++ batch_of [Sample.auth_sub "a"]
                   ++ le_split 4 5 ++ [Byte.x01]) 0 [Sample.auth_sub "a"]
                (le_split 4 5 ++ [Byte.x01]) Sample.listening)
      as [_ Hoverrun];
      [left; split; reflexivity|reflexivity|].
    apply (Hoverrun 5 [Byte.x01]); reflexivity.
Defined.

(** A container whose one entry is named "y". *)
Lemma multi_container_refused_witness :
  HandleMessage Sample.language Sample.providers (Sample.ReadMessage false)
    Sample.ReadPast 0 false Multi
    (le_split 4 7 ++ [Byte.x79; Byte.x07; Byte.x07]
       ++ batch_of [Sample.auth_sub "ab"]) 0 Sample.listening
  = (Aborted, Sample.listening).
Proof.
  apply (multi_container_refused Sample.language Sample.providers
           (Sample.ReadMessage false) Sample.ReadPast 0
           (le_split 4 7 ++ [Byte.x79; Byte.x07; Byte.x07]
              ++ batch_of [Sample.auth_sub "ab"]) 0 Sample.listening).
  - reflexivity.
  - intros (entry & Hopen & Hname & _).
    injection Hopen as <-. discriminate Hname.
Defined.

(** ** The handshake result *)

Section Handshake.

Variables (L : SteamLanguage) (P : Providers) (ReadMessage : bytes -> Action)
  (ReadPast : bytes -> Z -> Action) (rounds : nat).

Lemma encrypt_result_unchecked (data : bytes) (job_id : Z)
  (c : SteamClient) :
  HandleMessage L P ReadMessage ReadPast rounds true ChannelEncryptResult data
    job_id c
  = (Returned, handshake_done c).
Proof.
  cbn. unfold handshake_done, with_client. cbn.
  destruct (onHandshake c); reflexivity.
Qed.

Lemma encrypt_result_ok (NDEBUG : bool) (data : bytes) (job_id : Z)
  (c : SteamClient) :
  Mem.read_u32 data (MsgChannelEncryptResult_result L)
  = Some (EResult_OK L) ->
  HandleMessage L P ReadMessage ReadPast rounds NDEBUG ChannelEncryptResult
    data job_id c
  = (Returned, handshake_done c).
Proof.
  intros Hread. cbn [HandleMessage]. unfold handle_ChannelEncryptResult.
  rewrite Hread. cbn [option_map]. rewrite Z.eqb_refl.
  unfold assert, handshake_done, with_client, and_then, modify, ret, call.
  destruct NDEBUG; cbn; destruct (onHandshake c); reflexivity.
Qed.

Lemma encrypt_result_refused (data : bytes) (job_id result : Z)
  (c : SteamClient) :
  Mem.read_u32 data (MsgChannelEncryptResult_result L) = Some result ->
  result <> EResult_OK L ->
  HandleMessage L P ReadMessage ReadPast rounds false ChannelEncryptResult data
    job_id c
  = (Aborted, c).
Proof.
  intros Hread Hne. cbn [HandleMessage]. unfold handle_ChannelEncryptResult.
  rewrite Hread. cbn [option_map].
  apply Z.eqb_neq in Hne. rewrite Hne. reflexivity.
Qed.


Lemma handshake_done_once (c : SteamClient) :
  encrypted (handshake_done c) = true
  /\ log (handshake_done c)
     = log c ++ (if onHandshake c then [OnHandshake] else []).
Proof.
  unfold handshake_done. destruct (onHandshake c); cbn.
  - split; reflexivity.
  - now rewrite app_nil_r.
Qed.

(** C1, amended.  The result code is compared with OK by an [assert].
    An encryption result whose code is OK sets the encrypted flag and
    invokes the handshake callback, when one is set, once.  With any
    other code, a handler compiled with its assertions aborts the
    process and leaves the client as it was: the flag is not set and the
    callback is not invoked. *)
Theorem encrypt_result_asserted (NDEBUG : bool) (data : bytes)
  (job_id result : Z) (c : SteamClient) :
  Mem.read_u32 data (MsgChannelEncryptResult_result L) = Some result ->
  (result = EResult_OK L ->
   HandleMessage L P ReadMessage ReadPast rounds NDEBUG ChannelEncryptResult
     data job_id c
   = (Returned, handshake_done c))
  /\ (result <> EResult_OK L ->
      HandleMessage L P ReadMessage ReadPast rounds false ChannelEncryptResult
        data job_id c
      = (Aborted, c)).
Proof.
  intros Hread. split.
  - intros ->. now apply encrypt_result_ok.
  - intros Hne. now apply (encrypt_result_refused data job_id result).
Qed.

End Handshake.

(** The result codes 1 (OK) and 2, with the assertions compiled in. *)
Lemma encrypt_result_asserted_witness :
  HandleMessage Sample.language Sample.providers (Sample.ReadMessage false)
    Sample.ReadPast 0 false ChannelEncryptResult (le_split 4 1) 0
    Sample.listening
  = (Returned, handshake_done Sample.listening)
  /\ HandleMessage Sample.language Sample.providers (Sample.ReadMessage false)
       Sample.ReadPast 0 false ChannelEncryptResult (le_split 4 2) 0
       Sample.listening
     = (Aborted, Sample.listening).
Proof.
  split.
  - apply (encrypt_result_asserted Sample.language Sample.providers
             (Sample.ReadMessage false) Sample.ReadPast 0 false (le_split 4 1)
             0 1 Sample.listening);
      reflexivity.
  - apply (encrypt_result_asserted Sample.language Sample.providers
             (Sample.ReadMessage false) Sample.ReadPast 0 false (le_split 4 2)
             0 2 Sample.listening);
      [reflexivity|discriminate].
Defined.

(** C1 as it is worded fails when the handler is compiled with
    [NDEBUG]: the check is not there, and the result code 2 sets the
    flag and invokes the callback. *)
Lemma handshake_code_2_release :
  Mem.read_u32 (le_split 4 2)
    (MsgChannelEncryptResult_result Sample.language) = Some 2
  /\ 2 <> EResult_OK Sample.language
  /\ encrypted Sample.listening = false
  /\ HandleMessage Sample.language Sample.providers (Sample.ReadMessage true)
       Sample.ReadPast 0 true ChannelEncryptResult (le_split 4 2) 0
       Sample.listening
     = (Returned, record OnHandshake (set_encrypted true Sample.listening)).
Proof. by_evaluation. Qed.

(** ** Payloads shorter than their layout *)

Section Short.

Variables (L : SteamLanguage) (P : Providers) (ReadMessage : bytes -> Action)
  (ReadPast : bytes -> Z -> Action) (rounds : nat).
Variable NDEBUG : bool.

Lemma chat_msg_short (data : bytes) (job_id : Z) (c : SteamClient) :
  onChatMsg c = true ->
  Z.of_nat (length data) < sizeof_MsgClientChatMsg L ->
  HandleMessage L P ReadMessage ReadPast rounds NDEBUG ClientChatMsg data
    job_id c
  = (Thrown, c).
Proof.
  intros Hset Hshort. cbn [HandleMessage].
  unfold handle_ClientChatMsg, with_client. rewrite Hset. cbn [negb].
  replace (Z.of_nat (length data) <? sizeof_MsgClientChatMsg L) with true
    by (symmetry; now apply Z.ltb_lt).
  reflexivity.
Qed.

Lemma chat_enter_short (data : bytes) (job_id : Z) (c : SteamClient) :
  onChatEnter c = true ->
  Z.of_nat (length data) < sizeof_MsgClientChatEnter L ->
  HandleMessage L P ReadMessage ReadPast rounds NDEBUG ClientChatEnter data
    job_id c
  = (BadRead, c).
Proof.
  intros Hset Hshort. cbn [HandleMessage].
  unfold handle_ClientChatEnter, with_client. rewrite Hset. cbn [negb].
  replace (Mem.read_u32 data _) with (@None Z); [reflexivity|].
  symmetry. apply read_u32_none. lia.
Qed.

Lemma chat_member_info_short (data : bytes) (job_id : Z)
  (c : SteamClient) :
  Z.of_nat (length data) < sizeof_MsgClientChatMemberInfo L ->
  let r := HandleMessage L P ReadMessage ReadPast rounds NDEBUG
             ClientChatMemberInfo data job_id c in
  r = (BadRead, c) \/ r = (Returned, c).
Proof.
  intros Hshort. cbn [HandleMessage].
  unfold handle_ClientChatMemberInfo, with_client.
  destruct (onChatStateChange c); cbn [negb]; [|right; reflexivity].
  destruct (Mem.read_u32 data (MsgClientChatMemberInfo_type L)) as [t|];
    [|left; reflexivity].
  cbn [reading].
  destruct (t =? EChatInfoType_StateChange L); cbn [negb];
    [|right; reflexivity].
  left.
  replace (Mem.read_u64 data _) with (@None Z); [reflexivity|].
  symmetry. unfold Mem.read_u64.
  replace (Mem.slice data _ 8) with (@None bytes); [reflexivity|].
  symmetry. apply slice_none. lia.
Qed.

End Short.

Lemma encrypt_request_any (L : SteamLanguage) (P : Providers)
  (ReadMessage : bytes -> Action) (ReadPast : bytes -> Z -> Action)
  (rounds : nat) (NDEBUG : bool) (data : bytes) (job_id : Z) (c : SteamClient) :
  HandleMessage L P ReadMessage ReadPast rounds NDEBUG ChannelEncryptRequest
    data job_id c
  = (Returned, encrypt_request_answered L P c).
Proof. reflexivity. Qed.

Lemma encrypt_result_short (L : SteamLanguage) (P : Providers)
  (ReadMessage : bytes -> Action) (ReadPast : bytes -> Z -> Action)
  (rounds : nat) (data : bytes) (job_id : Z) (c : SteamClient) :
  Z.of_nat (length data) < MsgChannelEncryptResult_result L + 4 ->
  HandleMessage L P ReadMessage ReadPast rounds false ChannelEncryptResult data
    job_id c
  = (BadRead, c).
Proof.
  intros Hshort. cbn [HandleMessage]. unfold handle_ChannelEncryptResult.
  replace (Mem.read_u32 data _) with (@None Z); [reflexivity|].
  symmetry. apply read_u32_none. lia.
Qed.

(** C2, amended.  No case of the handler compares [length] with the
    size of its layout, and none refuses a payload for being short.  An
    encryption request shorter than its struct is answered as any other
    (the struct is never read).  A chat message shorter than its header,
    with its callback set, has a text range that ends before it starts:
    the string that is built of it is refused by the standard library,
    whose [std::length_error] leaves the handler before a field is read.
    A chat-enter message shorter than its header, with its callback set,
    has its count of members read outside the buffer; so are the fields
    of a chat-member-info message, unless it is dropped for want of a
    callback or for its info type. *)
Theorem short_payload_not_refused (L : SteamLanguage) (P : Providers)
  (ReadMessage : bytes -> Action) (ReadPast : bytes -> Z -> Action)
  (rounds : nat) (NDEBUG : bool) (data : bytes) (job_id : Z) (c : SteamClient) :
  (Z.of_nat (length data) < sizeof_MsgChannelEncryptRequest L ->
   HandleMessage L P ReadMessage ReadPast rounds NDEBUG ChannelEncryptRequest
     data job_id c
   = (Returned, encrypt_request_answered L P c))
  /\ (Z.of_nat (length data) < sizeof_MsgClientChatMsg L ->
      onChatMsg c = true ->
      HandleMessage L P ReadMessage ReadPast rounds NDEBUG ClientChatMsg data
        job_id c
      = (Thrown, c))
  /\ (Z.of_nat (length data) < sizeof_MsgClientChatEnter L ->
      onChatEnter c = true ->
      HandleMessage L P ReadMessage ReadPast rounds NDEBUG ClientChatEnter data
        job_id c
      = (BadRead, c))
  /\ (Z.of_nat (length data) < sizeof_MsgClientChatMemberInfo L ->
      HandleMessage L P ReadMessage ReadPast rounds NDEBUG ClientChatMemberInfo
        data job_id c
      = (BadRead, c)
      \/ HandleMessage L P ReadMessage ReadPast rounds NDEBUG
           ClientChatMemberInfo data job_id c
         = (Returned, c)).
Proof.
  repeat split.
  - intros Hshort Hset. now apply chat_msg_short.
  - intros Hshort Hset. now apply chat_enter_short.
  - intros Hshort. now apply chat_member_info_short.
Qed.

(** An empty encryption request, a chat message of three bytes and a
    chat-enter message of three bytes. *)
Lemma short_payload_not_refused_witness :
  (Z.of_nat (length (@nil byte))
   < sizeof_MsgChannelEncryptRequest Sample.language
   /\ HandleMessage Sample.language Sample.providers (Sample.ReadMessage false)
        Sample.ReadPast 0 false ChannelEncryptRequest [] 0 Sample.listening
      = (Returned,
         encrypt_request_answered Sample.language Sample.providers
           Sample.listening))
  /\ (Z.of_nat (length [Byte.x01; Byte.x02; Byte.x03])
      < sizeof_MsgClientChatMsg Sample.language
      /\ HandleMessage Sample.language Sample.providers
           (Sample.ReadMessage false) Sample.ReadPast 0 false ClientChatMsg
           [Byte.x01; Byte.x02; Byte.x03] 0 Sample.listening
         = (Thrown, Sample.listening))
  /\ (Z.of_nat (length [Byte.x01; Byte.x02; Byte.x03])
      < sizeof_MsgClientChatEnter Sample.language
      /\ HandleMessage Sample.language Sample.providers
           (Sample.ReadMessage false) Sample.ReadPast 0 false ClientChatEnter
           [Byte.x01; Byte.x02; Byte.x03] 0 Sample.listening
         = (BadRead, Sample.listening)).
Proof.
  split; [|split]; (split; [reflexivity|]).
  - destruct (short_payload_not_refused Sample.language Sample.providers
                (Sample.ReadMessage false) Sample.ReadPast 0 false [] 0
                Sample.listening)
      as (Hrequest & _).
    apply Hrequest. reflexivity.
  - destruct (short_payload_not_refused Sample.language Sample.providers
                (Sample.ReadMessage false) Sample.ReadPast 0 false
                [Byte.x01; Byte.x02; Byte.x03] 0 Sample.listening)
      as (_ & Hchat & _).
    apply Hchat; reflexivity.
  - destruct (short_payload_not_refused Sample.language Sample.providers
                (Sample.ReadMessage false) Sample.ReadPast 0 false
                [Byte.x01; Byte.x02; Byte.x03] 0 Sample.listening)
      as (_ & _ & Henter & _).
    apply Henter; reflexivity.
Defined.

(** C2 as it is worded fails on an encryption request with an empty
    payload, which is answered and not dropped, and on a chat-enter
    message of three bytes, whose count of members the handler reads
    at byte 41 where it should refuse the message. *)
Lemma short_payload_handled :
  (Z.of_nat (length (@nil byte))
   < sizeof_MsgChannelEncryptRequest Sample.language
   /\ HandleMessage Sample.language Sample.providers (Sample.ReadMessage false)
        Sample.ReadPast 0 false ChannelEncryptRequest [] 0 Sample.listening
      = (Returned,
         record
           (WriteMessage ChannelEncryptResponse false
              (le_split 4 1 ++ le_split 4 128 ++ repeat Byte.x2a 32
                 ++ le_split 4 1344 ++ le_split 4 0)
              0)
           (set_sessionKey (repeat Byte.x2a 32) Sample.listening)))
  /\ (Z.of_nat (length [Byte.x01; Byte.x02; Byte.x03])
      < sizeof_MsgClientChatEnter Sample.language
      /\ onChatEnter Sample.listening = true
      /\ Mem.read_u32 [Byte.x01; Byte.x02; Byte.x03]
           (sizeof_MsgClientChatEnter Sample.language) = None
      /\ HandleMessage Sample.language Sample.providers
           (Sample.ReadMessage false) Sample.ReadPast 0 false ClientChatEnter
           [Byte.x01; Byte.x02; Byte.x03] 0 Sample.listening
         = (BadRead, Sample.listening)).
Proof. by_evaluation. Qed.

(** ** Machine authentication *)

Lemma sha1_digest_length (msg : bytes) :
  length (Sha1.digest msg) = 20%nat.
Proof.
  unfold Sha1.digest.
  destruct (fold_left Sha1.block _ Sha1.init) as [[[[h0 h1] h2] h3] h4].
  unfold Sha1.be_split.
  now rewrite !length_app, !length_rev, !length_le_split.
Qed.

Section MachineAuth.

Variables (L : SteamLanguage) (P : Providers) (ReadMessage : bytes -> Action)
  (ReadPast : bytes -> Z -> Action) (rounds : nat).
Variable NDEBUG : bool.

(** C10. Without a sentry callback a machine-auth update is dropped at
    once: the handler returns and the client is as it was, so that no
    digest was asked for and no reply was sent. *)
Theorem machine_auth_unheard (data : bytes) (job_id : Z)
  (c : SteamClient) :
  onSentry c = false ->
  HandleMessage L P ReadMessage ReadPast rounds NDEBUG ClientUpdateMachineAuth
    data job_id c
  = (Returned, c).
Proof.
  intros Hunset. cbn [HandleMessage].
  unfold handle_ClientUpdateMachineAuth, with_client.
  now rewrite Hunset.
Qed.

(** C6, amended. With a sentry callback set, a machine-auth update
    with blob [blob] and job id [job_id] makes the handler compute the
    20-byte SHA-1 digest of [blob], send the reply that carries the
    digest with the flag set and with the job id of the request, and
    then invoke the sentry callback with the digest. *)
Theorem machine_auth_reply (data : bytes) (job_id : Z) (c : SteamClient) :
  let blob := auth_bytes (parse_CMsgClientUpdateMachineAuth P data) in
  onSentry c = true ->
  length (SHA1 P blob) = 20%nat ->
  HandleMessage L P ReadMessage ReadPast rounds NDEBUG ClientUpdateMachineAuth
    data job_id c
  = (Returned,
     record_all
       [CallSHA1 blob;
        WriteMessage ClientUpdateMachineAuthResponse true
          (serialize_CMsgClientUpdateMachineAuthResponse P (SHA1 P blob))
          job_id;
        OnSentry (SHA1 P blob)]
       c).
Proof.
  intros blob Hset Hlen. cbn [HandleMessage].
  unfold handle_ClientUpdateMachineAuth, with_client.
  rewrite Hset. cbn [negb]. fold blob.
  rewrite <- Hlen, firstn_all. reflexivity.
Qed.

End MachineAuth.

Lemma machine_auth_unheard_witness :
  HandleMessage Sample.language Sample.providers (Sample.ReadMessage false)
    Sample.ReadPast 0 false ClientUpdateMachineAuth (Sample.ascii_bytes "abc")
    7 Sample.deaf
  = (Returned, Sample.deaf).
Proof.
  apply (machine_auth_unheard Sample.language Sample.providers
           (Sample.ReadMessage false) Sample.ReadPast 0 false
           (Sample.ascii_bytes "abc") 7 Sample.deaf).
  reflexivity.
Defined.

Lemma machine_auth_reply_witness :
  HandleMessage Sample.language Sample.providers (Sample.ReadMessage false)
    Sample.ReadPast 0 false ClientUpdateMachineAuth (Sample.ascii_bytes "abc")
    7 Sample.listening
  = (Returned,
     record_all
       [CallSHA1 (Sample.ascii_bytes "abc");
        WriteMessage ClientUpdateMachineAuthResponse true
          (serialize_CMsgClientUpdateMachineAuthResponse Sample.providers
             (SHA1 Sample.providers (Sample.ascii_bytes "abc")))
          7;
        OnSentry (SHA1 Sample.providers (Sample.ascii_bytes "abc"))]
       Sample.listening).
Proof.
  apply (machine_auth_reply Sample.language Sample.providers
           (Sample.ReadMessage false) Sample.ReadPast 0 false
           (Sample.ascii_bytes "abc") 7 Sample.listening).
  - reflexivity.
  - vm_compute. reflexivity.
Defined.

(** C6 as it is worded fails for a client without a sentry callback:
    the update with blob "abc" and job id 7 is answered by nothing. *)
Lemma machine_auth_no_reply :
  onSentry Sample.deaf = false
  /\ HandleMessage Sample.language Sample.providers (Sample.ReadMessage false)
       Sample.ReadPast 0 false ClientUpdateMachineAuth
       (Sample.ascii_bytes "abc") 7 Sample.deaf
     = (Returned, Sample.deaf)
  /\ log Sample.deaf = [].
Proof. repeat split. Qed.

(** The digest of "abc" that the reply carries. *)
Example sha1_abc :
  map byte.unsigned (Sha1.digest (Sample.ascii_bytes "abc"))
  = [0xa9; 0x99; 0x3e; 0x36; 0x47; 0x06; 0x81; 0x6a; 0xba; 0x3e;
     0x25; 0x71; 0x78; 0x50; 0xc2; 0x6c; 0x9c; 0xd0; 0xd8; 0x9d].
Proof. vm_compute. reflexivity. Qed.

(** ** Logon *)

(** C9. A logon response invokes the logon callback, when one is set,
    with the result and the client's own identifier.  Whether or not
    one is set, a result equal to OK is followed by the scheduling of
    the heartbeat at the interval that the response carries, and any
    other result by no scheduling at all. *)
Theorem logon_response_heartbeat (L : SteamLanguage) (P : Providers)
  (ReadMessage : bytes -> Action) (ReadPast : bytes -> Z -> Action)
  (rounds : nat) (NDEBUG : bool) (data : bytes) (job_id : Z) (c : SteamClient) :
  let response := parse_CMsgClientLogonResponse P data in
  HandleMessage L P ReadMessage ReadPast rounds NDEBUG ClientLogOnResponse data
    job_id c
  = (Returned,
     record_all
       ((if onLogOn c
         then [OnLogOn (eresult response) (steamID c)] else [])
        ++ (if eresult response =? EResult_OK L
            then [setInterval ClientHeartBeat true
                    (serialize_CMsgClientHeartBeat P)
                    (out_of_game_heartbeat_seconds response)]
            else []))
       c).
Proof.
  cbn [HandleMessage]. unfold handle_ClientLogOnResponse, with_client.
  unfold and_then.
  destruct (onLogOn c) eqn:Hcb;
    destruct (eresult (parse_CMsgClientLogonResponse P data)
              =? EResult_OK L);
    reflexivity.
Qed.

(** ** Null-terminated text *)

Lemma is_nul_true (b : byte) : Mem.is_nul b = true <-> b = Byte.x00.
Proof.
  unfold Mem.is_nul. split.
  - apply Byte.byte_dec_bl.
  - apply Byte.byte_dec_lb.
Qed.

Lemma is_nul_false (b : byte) : Mem.is_nul b = false <-> b <> Byte.x00.
Proof.
  rewrite <- is_nul_true. destruct (Mem.is_nul b); split; congruence.
Qed.

Lemma find_nul_none (l : bytes) :
  Mem.find_nul l = None ->
  ~ In Byte.x00 l /\ Mem.c_string (Mem.std_string l) = Some l.
Proof.
  unfold Mem.std_string.
  induction l as [|b t IH]; cbn [Mem.find_nul Mem.c_string app].
  - intros _. split; [intros []|reflexivity].
  - destruct (Mem.is_nul b) eqn:Hb; [discriminate|].
    apply is_nul_false in Hb.
    destruct (Mem.find_nul t); [discriminate|].
    intros _. destruct (IH eq_refl) as [Hnot Hstr]. split.
    + intros [Hhd|Htl]; [congruence|contradiction].
    + now rewrite Hstr.
Qed.

Lemma find_nul_some (l : bytes) (n : nat) :
  Mem.find_nul l = Some n ->
  exists before after,
    l = before ++ Byte.x00 :: after
    /\ ~ In Byte.x00 before
    /\ Mem.c_string l = Some before.
Proof.
  revert n.
  induction l as [|b t IH]; cbn [Mem.find_nul Mem.c_string];
    [discriminate|].
  intros n. destruct (Mem.is_nul b) eqn:Hb.
  - apply is_nul_true in Hb. subst b. intros _.
    exists [], t. repeat split. intros [].
  - apply is_nul_false in Hb.
    destruct (Mem.find_nul t) as [m|]; [|discriminate].
    intros _. destruct (IH m eq_refl) as (before & after & -> & Hnot & Hstr).
    exists (b :: before), after. repeat split.
    + intros [Hhd|Htl]; [congruence|contradiction].
    + now rewrite Hstr.
Qed.

(** What the callback is given for the range [l]. *)
Lemma text_of_range (l : bytes) :
  exists text,
    match Mem.find_nul l with
    | None => Mem.c_string (Mem.std_string l)
    | Some _ => Mem.c_string l
    end = Some text
    /\ chat_text l text.
Proof.
  destruct (Mem.find_nul l) as [n|] eqn:E.
  - destruct (find_nul_some l n E) as (before & after & Hl & Hnot & Hstr).
    exists before. split; [assumption|].
    now apply (text_to_nul l before after).
  - destruct (find_nul_none l E) as [Hnot Hstr].
    exists l. split; [assumption|]. now apply text_whole.
Qed.

Lemma chat_text_unique (region t1 t2 : bytes) :
  chat_text region t1 -> chat_text region t2 -> t1 = t2.
Proof.
  assert (Hsplit : forall b1 a1 b2 a2 : bytes,
             b1 ++ Byte.x00 :: a1 = b2 ++ Byte.x00 :: a2 ->
             ~ In Byte.x00 b1 -> ~ In Byte.x00 b2 -> b1 = b2).
  { induction b1 as [|x b1 IH]; intros a1 [|y b2] a2 E H1 H2;
      cbn in *; trivial.
    - injection E as <- _. exfalso. auto.
    - injection E as -> _. exfalso. auto.
    - injection E as -> E. f_equal. apply (IH a1 b2 a2); auto. }
  intros [b1 a1 E1 H1|H1] [b2 a2 E2 H2|H2]; trivial.
  - apply (Hsplit b1 a1 b2 a2); congruence.
  - exfalso. apply H2. rewrite E1. apply in_or_app. right. now left.
  - exfalso. apply H1. rewrite E2. apply in_or_app. right. now left.
Qed.

(** ** Chat messages *)

(** C7. With a chat callback set and a payload that holds at least
    the header, the callback is invoked once, with the room and the
    chatter of the header and with the text of the trailing region:
    the bytes before its first null when it has one, and the whole
    region when it has none. *)
Theorem chat_msg_text (L : SteamLanguage) (P : Providers)
  (ReadMessage : bytes -> Action) (ReadPast : bytes -> Z -> Action)
  (rounds : nat) (NDEBUG : bool) (data : bytes) (job_id : Z) (c : SteamClient) :
  layout_ok L ->
  onChatMsg c = true ->
  sizeof_MsgClientChatMsg L <= Z.of_nat (length data) ->
  exists room chatter text,
    Mem.read_u64 data (MsgClientChatMsg_steamIdChatRoom L) = Some room
    /\ Mem.read_u64 data (MsgClientChatMsg_steamIdChatter L) = Some chatter
    /\ chat_text (skipn (Z.to_nat (sizeof_MsgClientChatMsg L)) data) text
    /\ HandleMessage L P ReadMessage ReadPast rounds NDEBUG ClientChatMsg data
         job_id c
       = (Returned, record (OnChatMsg room chatter text) c).
Proof.
  intros Hok Hset Hlen.
  destruct (chatroom_in L Hok) as [Hr0 Hr1].
  destruct (chatter_in L Hok) as [Hc0 Hc1].
  destruct (read_in_field data _ 8 _ (chatroom_in L Hok)) as [rb Hrb];
    [lia|assumption|].
  destruct (read_in_field data _ 8 _ (chatter_in L Hok)) as [cb Hcb];
    [lia|assumption|].
  set (size := sizeof_MsgClientChatMsg L) in *.
  assert (Hrange : Mem.slice data size (Z.of_nat (length data) - size)
                   = Some (skipn (Z.to_nat size) data)).
  { unfold Mem.slice.
    replace ((0 <=? size) && (0 <=? Z.of_nat (length data) - size)
             && (size + (Z.of_nat (length data) - size)
                 <=? Z.of_nat (length data)))
      with true
      by (symmetry; rewrite !andb_true_iff, !Z.leb_le; lia).
    f_equal. apply firstn_all2. rewrite length_skipn. lia. }
  destruct (text_of_range (skipn (Z.to_nat size) data))
    as (text & Htext & Hspec).
  exists (le_combine rb), (le_combine cb), text.
  unfold Mem.read_u64. rewrite Hrb, Hcb. repeat split; trivial.
  cbn [HandleMessage]. unfold handle_ClientChatMsg, with_client.
  rewrite Hset. cbn [negb]. fold size.
  replace (Z.of_nat (length data) <? size) with false
    by (symmetry; apply Z.ltb_ge; lia).
  rewrite Hrange. cbn [reading]. rewrite Htext. cbn [reading].
  unfold Mem.read_u64. rewrite Hrb, Hcb. reflexivity.
Qed.

Lemma chat_msg_text_witness :
  exists room chatter text,
    Mem.read_u64
      (le_split 8 5 ++ le_split 8 6 ++ le_split 4 1
         ++ Sample.ascii_bytes "hello" ++ [Byte.x00]
         ++ Sample.ascii_bytes "trailing")
      (MsgClientChatMsg_steamIdChatRoom Sample.language) = Some room
    /\ Mem.read_u64
         (le_split 8 5 ++ le_split 8 6 ++ le_split 4 1
            ++ Sample.ascii_bytes "hello" ++ [Byte.x00]
            ++ Sample.ascii_bytes "trailing")
         (MsgClientChatMsg_steamIdChatter Sample.language) = Some chatter
    /\ chat_text
         (skipn (Z.to_nat (sizeof_MsgClientChatMsg Sample.language))
            (le_split 8 5 ++ le_split 8 6 ++ le_split 4 1
               ++ Sample.ascii_bytes "hello" ++ [Byte.x00]
               ++ Sample.ascii_bytes "trailing"))
         text
    /\ HandleMessage Sample.language Sample.providers
         (Sample.ReadMessage false) Sample.ReadPast 0 false ClientChatMsg
         (le_split 8 5 ++ le_split 8 6 ++ le_split 4 1
            ++ Sample.ascii_bytes "hello" ++ [Byte.x00]
            ++ Sample.ascii_bytes "trailing") 0 Sample.listening
       = (Returned, record (OnChatMsg room chatter text) Sample.listening).
Proof.
  apply (chat_msg_text Sample.language Sample.providers
           (Sample.ReadMessage false) Sample.ReadPast 0 false _ 0
           Sample.listening).
  - constructor; unfold field_in; cbn; lia.
  - reflexivity.
  - vm_compute. discriminate.
Defined.

Example chat_hello_trailing :
  HandleMessage Sample.language Sample.providers (Sample.ReadMessage false)
    Sample.ReadPast 0 false ClientChatMsg
    (le_split 8 5 ++ le_split 8 6 ++ le_split 4 1
       ++ Sample.ascii_bytes "hello" ++ [Byte.x00]
       ++ Sample.ascii_bytes "trailing") 0 Sample.listening
  = (Returned,
     record (OnChatMsg 6 5 (Sample.ascii_bytes "hello")) Sample.listening).
Proof. vm_compute. reflexivity. Qed.

Example chat_hello_unterminated :
  HandleMessage Sample.language Sample.providers (Sample.ReadMessage false)
    Sample.ReadPast 0 false ClientChatMsg
    (le_split 8 5 ++ le_split 8 6 ++ le_split 4 1
       ++ Sample.ascii_bytes "hello") 0 Sample.listening
  = (Returned,
     record (OnChatMsg 6 5 (Sample.ascii_bytes "hello")) Sample.listening).
Proof. vm_compute. reflexivity. Qed.

(** ** Persona state *)

Lemma c_string_app (l m t : bytes) :
  Mem.c_string l = Some t -> Mem.c_string (l ++ m) = Some t.
Proof.
  revert t. induction l as [|b l IH]; cbn [Mem.c_string app];
    [discriminate|].
  intros t. destruct (Mem.is_nul b); [trivial|].
  destruct (Mem.c_string l) as [t'|]; [|discriminate].
  intros [= <-]. now rewrite (IH t').
Qed.

Lemma c_str_total (s : bytes) :
  exists text,
    Mem.c_string (Mem.std_string s) = Some text /\ chat_text s text.
Proof.
  destruct (text_of_range s) as (text & Htext & Hspec).
  exists text. split; [|assumption].
  destruct (Mem.find_nul s); [|assumption].
  now apply c_string_app.
Qed.

Section Persona.

Variables (L : SteamLanguage) (P : Providers) (ReadMessage : bytes -> Action)
  (ReadPast : bytes -> Z -> Action) (rounds : nat).

Lemma persona_one (NDEBUG : bool) (data : bytes) (job_id : Z)
  (c : SteamClient) (user : Friend) :
  onUserInfo c = true ->
  friends (parse_CMsgClientPersonaState P data) = [user] ->
  exists name,
    chat_text (player_name user) name
    /\ HandleMessage L P ReadMessage ReadPast rounds NDEBUG ClientPersonaState
         data job_id c
       = (Returned,
          record (OnUserInfo (friendid user) (steamid_source user) name) c).
Proof.
  intros Hset Hone.
  destruct (c_str_total (player_name user)) as (name & Hname & Hspec).
  exists name. split; [assumption|].
  cbn [HandleMessage]. unfold handle_ClientPersonaState, with_client.
  rewrite Hset, Hone. cbn [negb length nth_error].
  unfold assert, and_then. cbn.
  destruct NDEBUG; cbn; rewrite Hname; reflexivity.
Qed.

Lemma persona_refused (data : bytes) (job_id : Z) (c : SteamClient) :
  onUserInfo c = true ->
  length (friends (parse_CMsgClientPersonaState P data)) <> 1%nat ->
  HandleMessage L P ReadMessage ReadPast rounds false ClientPersonaState data
    job_id c
  = (Aborted, c).
Proof.
  intros Hset Hcount.
  cbn [HandleMessage]. unfold handle_ClientPersonaState, with_client.
  rewrite Hset. cbn [negb]. unfold assert, and_then.
  replace (Z.of_nat (length (friends (parse_CMsgClientPersonaState P data)))
           =? 1) with false; [reflexivity|].
  symmetry. apply Z.eqb_neq. lia.
Qed.

Lemma persona_unchecked (data : bytes) (job_id : Z) (c : SteamClient)
  (user : Friend) (others : list Friend) :
  onUserInfo c = true ->
  friends (parse_CMsgClientPersonaState P data) = user :: others ->
  exists name,
    chat_text (player_name user) name
    /\ HandleMessage L P ReadMessage ReadPast rounds true ClientPersonaState
         data job_id c
       = (Returned,
          record (OnUserInfo (friendid user) (steamid_source user) name) c).
Proof.
  intros Hset Hfriends.
  destruct (c_str_total (player_name user)) as (name & Hname & Hspec).
  exists name. split; [assumption|].
  cbn [HandleMessage]. unfold handle_ClientPersonaState, with_client.
  rewrite Hset, Hfriends. cbn [negb nth_error].
  unfold assert, and_then. cbn. rewrite Hname. reflexivity.
Qed.


Lemma persona_none_unchecked (data : bytes) (job_id : Z)
  (c : SteamClient) :
  onUserInfo c = true ->
  friends (parse_CMsgClientPersonaState P data) = [] ->
  HandleMessage L P ReadMessage ReadPast rounds true ClientPersonaState data
    job_id c
  = (BadRead, c).
Proof.
  intros Hset Hnone.
  cbn [HandleMessage]. unfold handle_ClientPersonaState, with_client.
  now rewrite Hset, Hnone.
Qed.

(** C8, amended.  The count of friend records is checked by an
    [assert].  With a user-info callback set, a message with exactly
    one record invokes the callback with the identifier, the source and
    the name of that record; a message with any other count makes a
    handler compiled with its assertions abort the process, and no
    callback is invoked. *)
Theorem persona_count_asserted (NDEBUG : bool) (data : bytes)
  (job_id : Z) (c : SteamClient) :
  onUserInfo c = true ->
  (forall user,
      friends (parse_CMsgClientPersonaState P data) = [user] ->
      exists name,
        chat_text (player_name user) name
        /\ HandleMessage L P ReadMessage ReadPast rounds NDEBUG
             ClientPersonaState data job_id c
           = (Returned,
              record
                (OnUserInfo (friendid user) (steamid_source user) name) c))
  /\ (length (friends (parse_CMsgClientPersonaState P data)) <> 1%nat ->
      HandleMessage L P ReadMessage ReadPast rounds false ClientPersonaState
        data job_id c
      = (Aborted, c)).
Proof.
  intros Hset. split.
  - intros user Hone. now apply persona_one.
  - intros Hcount. now apply persona_refused.
Qed.

End Persona.

(** Two friend records, with the assertions compiled in. *)
Lemma persona_count_asserted_witness :
  HandleMessage Sample.language Sample.providers (Sample.ReadMessage false)
    Sample.ReadPast 0 false ClientPersonaState
    [Byte.x01; Byte.x02; Byte.x61; Byte.x03; Byte.x04; Byte.x62] 0
    Sample.listening
  = (Aborted, Sample.listening).
Proof.
  destruct (persona_count_asserted Sample.language Sample.providers
              (Sample.ReadMessage false) Sample.ReadPast 0 false
              [Byte.x01; Byte.x02; Byte.x61; Byte.x03; Byte.x04; Byte.x62] 0
              Sample.listening eq_refl)
    as [_ Hrefused].
  apply Hrefused. cbn. discriminate.
Defined.

(** One friend record. *)
Example persona_one_record :
  HandleMessage Sample.language Sample.providers (Sample.ReadMessage false)
    Sample.ReadPast 0 false ClientPersonaState [Byte.x01; Byte.x02; Byte.x61] 0
    Sample.listening
  = (Returned,
     record (OnUserInfo 1 2 (Sample.ascii_bytes "a")) Sample.listening).
Proof. by_evaluation. Qed.

(** C8 as it is worded fails when the handler is compiled with
    [NDEBUG]: the count is not checked, and a message with two records
    invokes the callback with the first of them. *)
Lemma persona_two_records :
  length
    (friends
       (parse_CMsgClientPersonaState Sample.providers
          [Byte.x01; Byte.x02; Byte.x61; Byte.x03; Byte.x04; Byte.x62]))
  = 2%nat
  /\ HandleMessage Sample.language Sample.providers (Sample.ReadMessage true)
       Sample.ReadPast 0 true ClientPersonaState
       [Byte.x01; Byte.x02; Byte.x61; Byte.x03; Byte.x04; Byte.x62] 0
       Sample.listening
     = (Returned,
        record (OnUserInfo 1 2 (Sample.ascii_bytes "a")) Sample.listening).
Proof. by_evaluation. Qed.

(** ** The batches of the specification's tests *)

(** Sub-envelopes of 3 and 5 bytes are dispatched in their order, each
    with its own bytes. *)
Example multi_three_and_five :
  map (@length byte) Sample.two_subs = [3%nat; 5%nat]
  /\ HandleMessage Sample.language Sample.providers (Sample.ReadMessage false)
       Sample.ReadPast 0 false Multi (le_split 4 0 ++ batch_of Sample.two_subs)
       0 Sample.listening
     = (Returned,
        record_all
          [CallSHA1 (Sample.ascii_bytes "ab");
           WriteMessage ClientUpdateMachineAuthResponse true
             (Sha1.digest (Sample.ascii_bytes "ab")) 0;
           OnSentry (Sha1.digest (Sample.ascii_bytes "ab"));
           CallSHA1 (Sample.ascii_bytes "cdef");
           WriteMessage ClientUpdateMachineAuthResponse true
             (Sha1.digest (Sample.ascii_bytes "cdef")) 0;
           OnSentry (Sha1.digest (Sample.ascii_bytes "cdef"))]
          Sample.listening).
Proof. by_evaluation. Qed.

(** The same batch inside a container with the one entry "z". *)
Example multi_compressed_same :
  HandleMessage Sample.language Sample.providers (Sample.ReadMessage false)
    Sample.ReadPast 0 false Multi
    (le_split 4 16 ++ [Byte.x7a; Byte.x10; Byte.x10]
       ++ batch_of Sample.two_subs) 0 Sample.listening
  = HandleMessage Sample.language Sample.providers (Sample.ReadMessage false)
      Sample.ReadPast 0 false Multi (le_split 4 0 ++ batch_of Sample.two_subs)
      0 Sample.listening.
Proof. vm_compute. reflexivity. Qed.

(** ** Batches that the specification refuses *)

(** C3 as it is worded fails on a record that declares 5 bytes where 1
    is left: the handler raises nothing, hands the range of 5 bytes to
    [ReadMessage] and, when that call returns, returns. *)
Example multi_overrun :
  message_body
    (parse_CMsgMulti Sample.providers
       (le_split 4 0 ++ le_split 4 5 ++ [Byte.x01]))
  = le_split 4 5 ++ [Byte.x01]
  /\ Z.of_nat (length [Byte.x01]) < 5
  /\ HandleMessage Sample.language Sample.providers (Sample.ReadMessage false)
       Sample.ReadPast 0 false Multi
       (le_split 4 0 ++ le_split 4 5 ++ [Byte.x01]) 0 Sample.listening
     = (Returned, Sample.listening).
Proof. by_evaluation. Qed.

(** A whole record and two stray bytes: the record is dispatched
    before the read outside the buffer. *)
Example multi_partial_record :
  HandleMessage Sample.language Sample.providers (Sample.ReadMessage false)
    Sample.ReadPast 0 false Multi
    (le_split 4 0 ++ batch_of [Sample.auth_sub "a"] ++ [Byte.x09; Byte.x00]) 0
    Sample.listening
  = (BadRead,
     record_all
       [CallSHA1 (Sample.ascii_bytes "a");
        WriteMessage ClientUpdateMachineAuthResponse true
          (Sha1.digest (Sample.ascii_bytes "a")) 0;
        OnSentry (Sha1.digest (Sample.ascii_bytes "a"))]
       Sample.listening).
Proof. by_evaluation. Qed.

(** C4 as it is worded fails when the handler is compiled with
    [NDEBUG]: a container whose one entry is named "y" is decompressed
    and its sub-message dispatched. *)
Lemma container_wrong_name :
  archive_read_open_memory Sample.providers
    ([Byte.x79; Byte.x07; Byte.x07] ++ batch_of [Sample.auth_sub "ab"])
  = Some [{| archive_entry_pathname := "y";
             archive_entry_size := 7;
             entry_data := batch_of [Sample.auth_sub "ab"] |}]
  /\
  HandleMessage Sample.language Sample.providers (Sample.ReadMessage true)
    Sample.ReadPast 0 true Multi
    (le_split 4 7 ++ [Byte.x79; Byte.x07; Byte.x07]
       ++ batch_of [Sample.auth_sub "ab"]) 0 Sample.listening
  = (Returned,
     record_all
       [CallSHA1 (Sample.ascii_bytes "ab");
        WriteMessage ClientUpdateMachineAuthResponse true
          (Sha1.digest (Sample.ascii_bytes "ab")) 0;
        OnSentry (Sha1.digest (Sample.ascii_bytes "ab"))]
       Sample.listening).
Proof. by_evaluation. Qed.

(** The same for a container with a second entry after "z". *)
Example container_second_entry :
  option_map (@length archive_entry)
    (archive_read_open_memory Sample.providers
       ([Byte.x7a; Byte.x07; Byte.x07] ++ batch_of [Sample.auth_sub "ab"]
          ++ [Byte.x7a; Byte.x00; Byte.x00]))
  = Some 2%nat
  /\ HandleMessage Sample.language Sample.providers (Sample.ReadMessage true)
       Sample.ReadPast 0 true Multi
       (le_split 4 7 ++ [Byte.x7a; Byte.x07; Byte.x07]
          ++ batch_of [Sample.auth_sub "ab"]
          ++ [Byte.x7a; Byte.x00; Byte.x00]) 0 Sample.listening
     = (Returned,
        record_all
          [CallSHA1 (Sample.ascii_bytes "ab");
           WriteMessage ClientUpdateMachineAuthResponse true
             (Sha1.digest (Sample.ascii_bytes "ab")) 0;
           OnSentry (Sha1.digest (Sample.ascii_bytes "ab"))]
          Sample.listening).
Proof. by_evaluation. Qed.


(** * Further properties of the handler *)

(** ** Messages that are dropped *)

(** X1. A message whose kind is no case of the [switch], or whose case
    finds its callback unset, is dropped: the handler returns, the
    client is as it was, and this for every payload, since none of it is
    read. *)
Theorem dropped_unread (L : SteamLanguage) (P : Providers)
  (ReadMessage : bytes -> Action) (ReadPast : bytes -> Z -> Action)
  (rounds : nat) (NDEBUG : bool) (emsg : EMsg) (data : bytes) (job_id : Z)
  (c : SteamClient) :
  dropped c emsg = true ->
  HandleMessage L P ReadMessage ReadPast rounds NDEBUG emsg data job_id c
  = (Returned, c).
Proof.
  destruct emsg; cbn [dropped HandleMessage]; try discriminate;
    try reflexivity;
    unfold handle_ClientUpdateMachineAuth, handle_ClientPersonaState,
      handle_ClientChatMsg, handle_ClientChatEnter,
      handle_ClientChatMemberInfo, with_client;
    intros ->; reflexivity.
Qed.

(** A chat message of three bytes, too short to be read, for a client
    without callbacks. *)
Lemma dropped_unread_witness :
  HandleMessage Sample.language Sample.providers (Sample.ReadMessage false)
    Sample.ReadPast 0 false ClientChatMsg [Byte.x01; Byte.x02; Byte.x03] 0
    Sample.deaf
  = (Returned, Sample.deaf).
Proof.
  apply (dropped_unread Sample.language Sample.providers
           (Sample.ReadMessage false) Sample.ReadPast 0 false ClientChatMsg
           [Byte.x01; Byte.x02; Byte.x03] 0 Sample.deaf).
  reflexivity.
Defined.

(** ** What the handler leaves as it was *)

Lemma only_calls_refl (c : SteamClient) : only_calls c c.
Proof. now exists []. Qed.

Lemma only_calls_record (e : Call) (c c' : SteamClient) :
  only_calls c c' -> only_calls c (record e c').
Proof.
  intros [calls ->]. exists (calls ++ [e]).
  unfold record_all. now rewrite fold_left_app.
Qed.

Lemma log_record_all (calls : list Call) (c : SteamClient) :
  log (record_all calls c) = log c ++ calls.
Proof.
  revert c. induction calls as [|e calls IH]; intros c; cbn.
  - now rewrite app_nil_r.
  - fold (record_all calls (record e c)). rewrite IH. cbn.
    now rewrite <- app_assoc.
Qed.

Lemma record_all_members (calls : list Call) (c : SteamClient) :
  set_encrypted true (record_all calls c)
  = record_all calls (set_encrypted true c)
  /\ encrypted (record_all calls c) = encrypted c
  /\ sessionKey (record_all calls c) = sessionKey c
  /\ steamID (record_all calls c) = steamID c
  /\ onHandshake (record_all calls c) = onHandshake c
  /\ onLogOn (record_all calls c) = onLogOn c
  /\ onSentry (record_all calls c) = onSentry c
  /\ onUserInfo (record_all calls c) = onUserInfo c
  /\ onChatMsg (record_all calls c) = onChatMsg c
  /\ onChatEnter (record_all calls c) = onChatEnter c
  /\ onChatStateChange (record_all calls c) = onChatStateChange c.
Proof.
  revert c. induction calls as [|e calls IH]; intros c; cbn.
  - repeat split.
  - fold (record_all calls (record e c)).
    fold (record_all calls (record e (set_encrypted true c))).
    destruct (IH (record e c)) as (-> & -> & -> & -> & -> & -> & -> & ->
                                    & -> & -> & ->).
    repeat split.
Qed.

Lemma only_calls_keeps (c c' : SteamClient) :
  only_calls c c' -> keeps c c'.
Proof.
  intros [calls ->].
  destruct (record_all_members calls c)
    as (_ & Henc & _ & ? & ? & ? & ? & ? & ? & ? & ?).
  constructor; trivial.
  - now rewrite Henc.
  - exists calls. apply log_record_all.
Qed.

Lemma keeps_refl (c : SteamClient) : keeps c c.
Proof. apply only_calls_keeps, only_calls_refl. Qed.

Lemma keeps_trans (c1 c2 c3 : SteamClient) :
  keeps c1 c2 -> keeps c2 c3 -> keeps c1 c3.
Proof.
  intros [? ? ? ? ? ? ? ? E12 [l12 H12]] [? ? ? ? ? ? ? ? E23 [l23 H23]].
  constructor; try congruence; auto.
  exists (l12 ++ l23). now rewrite H23, H12, app_assoc.
Qed.

Lemma only_calls_trans (c1 c2 c3 : SteamClient) :
  only_calls c1 c2 -> only_calls c2 c3 -> only_calls c1 c3.
Proof.
  intros [l12 ->] [l23 ->]. exists (l12 ++ l23).
  unfold record_all. now rewrite fold_left_app.
Qed.

(** How a relation that is kept by every step is kept by the actions
    that the steps make up. *)
Section Preserved.

Variable R : SteamClient -> SteamClient -> Prop.
Hypothesis R_refl : forall c, R c c.
Hypothesis R_trans : forall c1 c2 c3, R c1 c2 -> R c2 c3 -> R c1 c3.
Hypothesis R_record : forall e c, R c (record e c).

Lemma preserves_ret : preserves R ret.
Proof. intros c. apply R_refl. Qed.

Lemma preserves_stop (o : Outcome) : preserves R (stop o).
Proof. intros c. apply R_refl. Qed.

Lemma preserves_call (e : Call) : preserves R (call e).
Proof. intros c. apply R_record. Qed.

Lemma preserves_and_then (a b : Action) :
  preserves R a -> preserves R b -> preserves R (a ;; b).
Proof.
  intros Ha Hb c. unfold and_then. specialize (Ha c).
  destruct (a c) as [[] c']; trivial.
  apply (R_trans c c'); [assumption|apply Hb].
Qed.

Lemma preserves_reading {A : Type} (o : option A) (k : A -> Action) :
  (forall a, preserves R (k a)) -> preserves R (reading o k).
Proof. intros Hk. destruct o; [apply Hk|apply preserves_stop]. Qed.

Lemma preserves_with_client (k : SteamClient -> Action) :
  (forall c0, preserves R (k c0)) -> preserves R (with_client k).
Proof. intros Hk c. apply Hk. Qed.

Lemma preserves_assert (NDEBUG : bool) (cond : option bool) :
  preserves R (assert NDEBUG cond).
Proof.
  unfold assert. destruct NDEBUG; [apply preserves_ret|].
  destruct cond as [[]|];
    [apply preserves_ret|apply preserves_stop|apply preserves_stop].
Qed.

Lemma preserves_modify (f : SteamClient -> SteamClient) :
  (forall c, R c (f c)) -> preserves R (modify f).
Proof. intros Hf c. apply Hf. Qed.

Lemma preserves_walk (ReadMessage : bytes -> Action)
  (ReadPast : bytes -> Z -> Action) (fuel : nat) :
  (forall body, preserves R (ReadMessage body)) ->
  (forall seen length, preserves R (ReadPast seen length)) ->
  forall data payload_size offset,
    preserves R (walk ReadMessage ReadPast fuel data payload_size offset).
Proof.
  intros HR HP.
  induction fuel as [|fuel IH]; intros data payload_size offset;
    cbn [walk]; [apply preserves_stop|].
  destruct (offset <? payload_size); [|apply preserves_ret].
  apply preserves_reading. intros subSize.
  apply preserves_and_then; [|apply IH].
  unfold ReadMessage_at.
  destruct (Mem.slice data (offset + 4) subSize) as [body|]; [apply HR|].
  apply preserves_reading. intros seen. apply HP.
Qed.

End Preserved.

Ltac preserved :=
  cbv zeta;
  repeat match goal with
    | |- preserves _ (with_client _) =>
        apply preserves_with_client; trivial; intros ?
    | |- preserves _ (and_then _ _) => apply preserves_and_then; trivial
    | |- preserves _ (reading _ _) =>
        apply preserves_reading; trivial; intros ?
    | |- preserves _ (assert _ _) => apply preserves_assert; trivial
    | |- preserves _ (call _) => apply preserves_call; trivial
    | |- preserves _ ret => apply preserves_ret; trivial
    | |- preserves _ (stop _) => apply preserves_stop; trivial
    | |- preserves _ (if ?b then _ else _) => destruct b
    | |- preserves _ (match ?x with _ => _ end) => destruct x
    end.

(** X2. The cases that only decode a message (logon response, machine
    authentication, persona state, the three chat kinds, and the kinds
    that are no case) change nothing in the client: however the call
    ends, the client is what it was, but for the calls that were
    made. *)
Theorem decoders_only_call (L : SteamLanguage) (P : Providers)
  (ReadMessage : bytes -> Action) (ReadPast : bytes -> Z -> Action)
  (rounds : nat) (NDEBUG : bool) (emsg : EMsg) (data : bytes) (job_id : Z)
  (c : SteamClient) :
  decodes_only emsg = true ->
  only_calls c
    (snd (HandleMessage L P ReadMessage ReadPast rounds NDEBUG emsg data job_id
            c)).
Proof.
  intros Hkind. revert c. fold (preserves only_calls
    (HandleMessage L P ReadMessage ReadPast rounds NDEBUG emsg data job_id)).
  pose proof only_calls_refl. pose proof only_calls_trans.
  assert (forall e c, only_calls c (record e c))
    by (intros; apply only_calls_record, only_calls_refl).
  destruct emsg; cbn [decodes_only HandleMessage] in *;
    try discriminate;
    unfold handle_ClientLogOnResponse, handle_ClientUpdateMachineAuth,
      handle_ClientPersonaState, handle_ClientChatMsg,
      handle_ClientChatEnter, handle_ClientChatMemberInfo;
    preserved.
Qed.

Lemma decoders_only_call_witness :
  only_calls Sample.listening
    (snd (HandleMessage Sample.language Sample.providers
            (Sample.ReadMessage false) Sample.ReadPast 0 false
            ClientUpdateMachineAuth (Sample.ascii_bytes "abc") 7
            Sample.listening)).
Proof.
  apply (decoders_only_call Sample.language Sample.providers
           (Sample.ReadMessage false) Sample.ReadPast 0 false
           ClientUpdateMachineAuth (Sample.ascii_bytes "abc") 7
           Sample.listening).
  reflexivity.
Defined.

(** X3. No message takes anything from the client.  If the dispatch of
    sub-messages keeps the identifier, the callbacks, a set encrypted
    flag and the calls made so far, on whatever range it is called, so
    does the handler, for every kind of message, every payload and
    every end of the call: the encrypted flag is never cleared and no
    callback is ever unset. *)
Theorem handler_keeps (L : SteamLanguage) (P : Providers)
  (ReadMessage : bytes -> Action) (ReadPast : bytes -> Z -> Action)
  (rounds : nat) (NDEBUG : bool) (emsg : EMsg) (data : bytes) (job_id : Z)
  (c : SteamClient) :
  (forall body c0, keeps c0 (snd (ReadMessage body c0))) ->
  (forall seen length c0, keeps c0 (snd (ReadPast seen length c0))) ->
  keeps c
    (snd (HandleMessage L P ReadMessage ReadPast rounds NDEBUG emsg data job_id
            c)).
Proof.
  intros HR HP. revert c. fold (preserves keeps
    (HandleMessage L P ReadMessage ReadPast rounds NDEBUG emsg data job_id)).
  pose proof keeps_refl. pose proof keeps_trans.
  assert (forall e c, keeps c (record e c))
    by (intros; apply only_calls_keeps, only_calls_record,
          only_calls_refl).
  assert (Hkey : forall k c, keeps c (set_sessionKey k c))
    by (intros; constructor; trivial; exists []; cbn;
        now rewrite app_nil_r).
  assert (Henc : forall c, keeps c (set_encrypted true c))
    by (intros; constructor; trivial; exists []; cbn;
        now rewrite app_nil_r).
  destruct emsg; cbn [HandleMessage];
    unfold handle_ChannelEncryptRequest, handle_ChannelEncryptResult,
      handle_Multi, handle_ClientLogOnResponse,
      handle_ClientUpdateMachineAuth, handle_ClientPersonaState,
      handle_ClientChatMsg, handle_ClientChatEnter,
      handle_ClientChatMemberInfo;
    preserved;
    try (apply preserves_modify; trivial);
    try (apply preserves_walk; trivial).
Qed.

(** A handshake result for a client that is encrypted already. *)
Lemma handler_keeps_witness :
  keeps (set_encrypted true Sample.listening)
    (snd (HandleMessage Sample.language Sample.providers (fun _ => ret)
            Sample.ReadPast 0 false ChannelEncryptResult (le_split 4 1) 0
            (set_encrypted true Sample.listening))).
Proof.
  apply (handler_keeps Sample.language Sample.providers (fun _ => ret)
           Sample.ReadPast 0 false ChannelEncryptResult (le_split 4 1) 0
           (set_encrypted true Sample.listening)).
  - intros body c0. apply keeps_refl.
  - intros seen length c0. apply keeps_refl.
Defined.

(** ** The two builds *)

Lemma decompress_release (P : Providers) (size : Z)
  (payload buffer : bytes) :
  decompress P false size payload = inl buffer ->
  decompress P true size payload = inl buffer.
Proof.
  unfold decompress.
  destruct (archive_read_open_memory P payload) as [[|entry more]|];
    cbn [negb andb]; try discriminate.
  repeat match goal with
    | |- context [if ?b then _ else _] => destruct b
    end; try discriminate; trivial.
Qed.

Lemma decompress_stops (P : Providers) (NDEBUG : bool) (size : Z)
  (payload : bytes) (o : Outcome) :
  decompress P NDEBUG size payload = inr o -> o = Aborted.
Proof.
  unfold decompress.
  destruct (archive_read_open_memory P payload) as [[|entry more]|];
    repeat match goal with
      | |- context [if ?b then _ else _] => destruct b
      end; congruence.
Qed.

(** X4. The assertions only ever stop the handler.  A message that the
    handler compiled with its assertions handles to its return is
    handled by the handler compiled with [NDEBUG] in the same way: the
    same calls, the same client. *)
Theorem release_follows_debug (L : SteamLanguage) (P : Providers)
  (ReadMessage : bytes -> Action) (ReadPast : bytes -> Z -> Action)
  (rounds : nat) (emsg : EMsg) (data : bytes) (job_id : Z)
  (c c' : SteamClient) :
  HandleMessage L P ReadMessage ReadPast rounds false emsg data job_id c
  = (Returned, c') ->
  HandleMessage L P ReadMessage ReadPast rounds true emsg data job_id c
  = (Returned, c').
Proof.
  destruct emsg; cbn [HandleMessage]; trivial.
  - unfold handle_ChannelEncryptResult, assert, and_then.
    destruct (option_map _ _) as [[]|]; intros H;
      first [exact H|discriminate H].
  - unfold handle_Multi.
    destruct (0 <? size_unzipped (parse_CMsgMulti P data)); trivial.
    destruct (decompress P false _ _) as [buffer|o] eqn:E.
    + now rewrite (decompress_release _ _ _ _ E).
    + apply decompress_stops in E. subst o. discriminate.
  - unfold handle_ClientPersonaState, with_client, assert, and_then.
    destruct (negb (onUserInfo c)); trivial.
    destruct (Z.of_nat _ =? 1); intros H;
      first [exact H|discriminate H].
Qed.

Lemma release_follows_debug_witness :
  HandleMessage Sample.language Sample.providers (Sample.ReadMessage false)
    Sample.ReadPast 0 true ChannelEncryptResult (le_split 4 1) 0
    Sample.listening
  = (Returned, handshake_done Sample.listening).
Proof.
  apply (release_follows_debug Sample.language Sample.providers
           (Sample.ReadMessage false) Sample.ReadPast 0 ChannelEncryptResult
           (le_split 4 1) 0 Sample.listening (handshake_done Sample.listening)).
  reflexivity.
Defined.

(** ** More on batches *)

(** X5. A batch in a conforming container is handled as the same batch
    sent uncompressed: when the buffer that the message carries, its
    payload or the data of the one entry "z" of the declared size, is a
    sequence of whole records, every record is dispatched once, in
    order, with its own bytes, in either build. *)
Theorem multi_carried_dispatch (L : SteamLanguage) (P : Providers)
  (ReadMessage : bytes -> Action) (ReadPast : bytes -> Z -> Action)
  (rounds : nat) (NDEBUG : bool) (data : bytes) (job_id : Z)
  (bodies : list bytes) (c : SteamClient) :
  carries P data (batch_of bodies) ->
  Z.of_nat (length (batch_of bodies)) < 2 ^ 32 ->
  HandleMessage L P ReadMessage ReadPast rounds NDEBUG Multi data job_id c
  = dispatch_all ReadMessage bodies c.
Proof.
  intros Hcarries Hlen.
  rewrite (multi_walks_buffer L P ReadMessage ReadPast rounds NDEBUG data _
             job_id c Hcarries).
  apply walk_whole_batch; [assumption|].
  pose proof (batch_of_length bodies). lia.
Qed.

(** The two sub-messages in a container with the one entry "z". *)
Lemma multi_carried_dispatch_witness :
  HandleMessage Sample.language Sample.providers (Sample.ReadMessage false)
    Sample.ReadPast 0 false Multi
    (le_split 4 16 ++ [Byte.x7a; Byte.x10; Byte.x10]
       ++ batch_of Sample.two_subs) 0 Sample.listening
  = dispatch_all (Sample.ReadMessage false) Sample.two_subs
      Sample.listening.
Proof.
  apply (multi_carried_dispatch Sample.language Sample.providers
           (Sample.ReadMessage false) Sample.ReadPast 0 false
           (le_split 4 16 ++ [Byte.x7a; Byte.x10; Byte.x10]
              ++ batch_of Sample.two_subs) 0 Sample.two_subs Sample.listening).
  - right. split; [reflexivity|].
    exists {| archive_entry_pathname := "z";
              archive_entry_size := 16;
              entry_data := batch_of Sample.two_subs |}.
    repeat split.
  - reflexivity.
Defined.

(** X6. The loop over a batch need not end.  The offset and the sum
    [4 + subSize] are 32-bit numbers: a first record that declares
    [2 ^ 32 - 4] bytes adds 0 to the offset, and the loop stays on that
    record.  Every round hands the same range, which runs past the end
    of the buffer, to [ReadMessage]; the handler ends only when such a
    call does not return, and it never returns: whatever the number of
    rounds that are followed, more calls than that were made and the
    loop has not ended. *)
Theorem multi_goes_round (L : SteamLanguage) (P : Providers)
  (ReadMessage : bytes -> Action) (ReadPast : bytes -> Z -> Action)
  (rounds : nat) (NDEBUG : bool) (data rest : bytes) (job_id : Z)
  (c : SteamClient) :
  carries P data (le_split 4 (2 ^ 32 - 4) ++ rest) ->
  Z.of_nat (length rest) < 2 ^ 32 - 4 ->
  fst (HandleMessage L P ReadMessage ReadPast rounds NDEBUG Multi data job_id c)
  <> Returned
  /\ exists n : nat,
       (rounds < n)%nat
       /\ HandleMessage L P ReadMessage ReadPast rounds NDEBUG Multi data
            job_id c
          = (again n (ReadPast rest (2 ^ 32 - 4)) ;; stop Diverged) c.
Proof.
  intros Hcarries Hrest.
  rewrite (multi_walks_buffer L P ReadMessage ReadPast rounds NDEBUG data _
             job_id c Hcarries).
  rewrite (walk_wraps ReadMessage ReadPast _ rest eq_refl Hrest).
  split.
  - apply again_stops. discriminate.
  - eexists. split; [|reflexivity]. lia.
Qed.

(** The batch of five bytes [fc ff ff ff 01]. *)
Lemma multi_goes_round_witness :
  fst (HandleMessage Sample.language Sample.providers
         (Sample.ReadMessage false) Sample.ReadPast 0 false Multi
         (le_split 4 0 ++ le_split 4 (2 ^ 32 - 4) ++ [Byte.x01]) 0
         Sample.listening)
  <> Returned
  /\ exists n : nat,
       (0 < n)%nat
       /\ HandleMessage Sample.language Sample.providers
            (Sample.ReadMessage false) Sample.ReadPast 0 false Multi
            (le_split 4 0 ++ le_split 4 (2 ^ 32 - 4) ++ [Byte.x01]) 0
            Sample.listening
          = (again n (Sample.ReadPast [Byte.x01] (2 ^ 32 - 4)) ;;
             stop Diverged) Sample.listening.
Proof.
  apply (multi_goes_round Sample.language Sample.providers
           (Sample.ReadMessage false) Sample.ReadPast 0 false
           (le_split 4 0 ++ le_split 4 (2 ^ 32 - 4) ++ [Byte.x01]) [Byte.x01] 0
           Sample.listening).
  - left. split; reflexivity.
  - reflexivity.
Defined.

(** With a dispatcher that returns, the handler is still in its loop
    after six rounds, and after a thousand and six. *)
Example multi_all_ones :
  HandleMessage Sample.language Sample.providers (Sample.ReadMessage false)
    Sample.ReadPast 0 false Multi
    (le_split 4 0 ++ le_split 4 (2 ^ 32 - 4) ++ [Byte.x01]) 0 Sample.listening
  = (Diverged, Sample.listening)
  /\ HandleMessage Sample.language Sample.providers (Sample.ReadMessage false)
       Sample.ReadPast 1000 false Multi
       (le_split 4 0 ++ le_split 4 (2 ^ 32 - 4) ++ [Byte.x01]) 0
       Sample.listening
     = (Diverged, Sample.listening).
Proof. by_evaluation. Qed.



(** ** Reads in a buffer that is built of parts *)

Lemma slice_app_l (buf rest : bytes) (off len : Z) (l : bytes) :
  Mem.slice buf off len = Some l ->
  Mem.slice (buf ++ rest) off len = Some l.
Proof.
  intros E. pose proof (slice_length _ _ _ _ E) as (Hoff & Hlen & Hin & _).
  revert E. unfold Mem.slice. rewrite length_app.
  replace ((0 <=? off) && (0 <=? len)
           && (off + len <=? Z.of_nat (length buf)))
    with true by (symmetry; rewrite !andb_true_iff, !Z.leb_le; lia).
  replace ((0 <=? off) && (0 <=? len)
           && (off + len <=? Z.of_nat (length buf + length rest)))
    with true by (symmetry; rewrite !andb_true_iff, !Z.leb_le; lia).
  intros [= <-]. f_equal.
  rewrite skipn_app, firstn_app, length_skipn.
  replace (Z.to_nat len - (length buf - Z.to_nat off))%nat with 0%nat
    by lia.
  cbn [firstn]. now rewrite app_nil_r.
Qed.

Lemma read_u32_app_l (buf rest : bytes) (off v : Z) :
  Mem.read_u32 buf off = Some v -> Mem.read_u32 (buf ++ rest) off = Some v.
Proof.
  unfold Mem.read_u32.
  destruct (Mem.slice buf off 4) as [l|] eqn:E; [|discriminate].
  now rewrite (slice_app_l _ rest _ _ _ E).
Qed.

Lemma read_u64_app_l (buf rest : bytes) (off v : Z) :
  Mem.read_u64 buf off = Some v -> Mem.read_u64 (buf ++ rest) off = Some v.
Proof.
  unfold Mem.read_u64.
  destruct (Mem.slice buf off 8) as [l|] eqn:E; [|discriminate].
  now rewrite (slice_app_l _ rest _ _ _ E).
Qed.

Lemma read_u64_middle (pre post : bytes) (n : Z) :
  0 <= n < 2 ^ 64 ->
  Mem.read_u64 (pre ++ le_split 8 n ++ post) (Z.of_nat (length pre))
  = Some n.
Proof.
  intros Hn. unfold Mem.read_u64.
  pose proof (slice_middle pre (le_split 8 n) post) as E.
  rewrite length_le_split in E. change (Z.of_nat 8) with 8 in E.
  rewrite E. cbn [option_map].
  rewrite le_combine_split. f_equal. apply Z.mod_small.
  change (Z.of_nat 8 * 8) with 64. lia.
Qed.

Lemma c_string_terminated (name rest : bytes) :
  ~ In Byte.x00 name ->
  Mem.c_string (name ++ Byte.x00 :: rest) = Some name.
Proof.
  induction name as [|b name IH]; cbn [app Mem.c_string]; intros Hnot.
  - reflexivity.
  - replace (Mem.is_nul b) with false
      by (symmetry; apply is_nul_false; intros ->; apply Hnot; now left).
    rewrite IH; [reflexivity|]. intros Hin. apply Hnot. now right.
Qed.

Lemma c_string_unterminated (l : bytes) :
  ~ In Byte.x00 l -> Mem.c_string l = None.
Proof.
  induction l as [|b l IH]; cbn [Mem.c_string]; intros Hnot; trivial.
  replace (Mem.is_nul b) with false
    by (symmetry; apply is_nul_false; intros ->; apply Hnot; now left).
  rewrite IH; [reflexivity|]. intros Hin. apply Hnot. now right.
Qed.

(** ** Entering a chat *)

Section ChatEnter.

Variables (L : SteamLanguage) (P : Providers) (ReadMessage : bytes -> Action)
  (ReadPast : bytes -> Z -> Action) (rounds : nat).
Variable NDEBUG : bool.

(** X8. A chat-enter message is decoded part by part.  For a payload
    made of the header, the [u32] count of members, the name of the room
    closed by a null, and the member records, a handler with the
    callback set invokes it once with the chat and the response of the
    header, the name without its null, the count, and the view that
    starts at the first member record. *)
Theorem chat_enter_decoded (hdr name members : bytes) (count job_id : Z)
  (c : SteamClient) :
  layout_ok L ->
  onChatEnter c = true ->
  Z.of_nat (length hdr) = sizeof_MsgClientChatEnter L ->
  0 <= count < 2 ^ 32 ->
  ~ In Byte.x00 name ->
  exists chat response,
    Mem.read_u64 hdr (MsgClientChatEnter_steamIdChat L) = Some chat
    /\ Mem.read_u32 hdr (MsgClientChatEnter_enterResponse L)
       = Some response
    /\ HandleMessage L P ReadMessage ReadPast rounds NDEBUG ClientChatEnter
         (hdr ++ le_split 4 count ++ name ++ Byte.x00 :: members) job_id c
       = (Returned,
          record (OnChatEnter chat response name count members) c).
Proof.
  intros Hok Hset Hsize Hcount Hname.
  destruct (read_in_field hdr _ 8 _ (chat_in L Hok)) as [cb Hcb];
    [lia|lia|].
  destruct (read_in_field hdr _ 4 _ (response_in L Hok)) as [rb Hrb];
    [lia|lia|].
  exists (le_combine cb), (le_combine rb).
  assert (Hchat : Mem.read_u64 hdr (MsgClientChatEnter_steamIdChat L)
                  = Some (le_combine cb))
    by (unfold Mem.read_u64; now rewrite Hcb).
  assert (Hresp : Mem.read_u32 hdr (MsgClientChatEnter_enterResponse L)
                  = Some (le_combine rb))
    by (unfold Mem.read_u32; now rewrite Hrb).
  repeat split; trivial.
  cbn [HandleMessage]. unfold handle_ClientChatEnter, with_client.
  rewrite Hset. cbn [negb]. rewrite <- Hsize.
  rewrite read_u32_middle by assumption. cbn [reading].
  set (data := hdr ++ le_split 4 count ++ name ++ Byte.x00 :: members).
  assert (Hview : Mem.view data (Z.of_nat (length hdr) + 4)
                  = Some (name ++ Byte.x00 :: members)).
  { unfold data. rewrite app_assoc.
    replace (Z.of_nat (length hdr) + 4)
      with (Z.of_nat (length (hdr ++ le_split 4 count)))
      by (rewrite length_app, length_le_split; lia).
    apply view_app. }
  rewrite Hview. cbn [reading].
  rewrite c_string_terminated by assumption. cbn [reading].
  assert (Hmembers :
            Mem.view data
              (Z.of_nat (length hdr) + 4 + Z.of_nat (length name) + 1)
            = Some members).
  { unfold data.
    replace (hdr ++ le_split 4 count ++ name ++ Byte.x00 :: members)
      with ((hdr ++ le_split 4 count ++ name ++ [Byte.x00]) ++ members)
      by (now rewrite <- !app_assoc).
    replace (Z.of_nat (length hdr) + 4 + Z.of_nat (length name) + 1)
      with (Z.of_nat
              (length (hdr ++ le_split 4 count ++ name ++ [Byte.x00])))
      by (rewrite !length_app, length_le_split; cbn [length]; lia).
    apply view_app. }
  rewrite Hmembers. cbn [reading].
  unfold data.
  rewrite (read_u64_app_l _ _ _ _ Hchat), (read_u32_app_l _ _ _ _ Hresp).
  reflexivity.
Qed.

(** X9. The name of the room is looked for without an end.  When no
    null follows the count of members, the scan of a handler with the
    callback set goes on past the end of the payload: the handler reads
    outside the buffer. *)
Theorem chat_enter_unterminated (data : bytes) (job_id : Z)
  (c : SteamClient) :
  layout_ok L ->
  onChatEnter c = true ->
  sizeof_MsgClientChatEnter L + 4 <= Z.of_nat (length data) ->
  ~ In Byte.x00
      (skipn (Z.to_nat (sizeof_MsgClientChatEnter L + 4)) data) ->
  fst (HandleMessage L P ReadMessage ReadPast rounds NDEBUG ClientChatEnter
         data job_id c)
  = BadRead.
Proof.
  intros Hok Hset Hlen Hname.
  destruct (chat_in L Hok) as [Hoff Hin].
  cbn [HandleMessage]. unfold handle_ClientChatEnter, with_client.
  rewrite Hset. cbn [negb].
  destruct (Mem.read_u32 data (sizeof_MsgClientChatEnter L)) eqn:Hcount.
  2:{ apply read_u32_none in Hcount. lia. }
  cbn [reading]. unfold Mem.view.
  replace ((0 <=? sizeof_MsgClientChatEnter L + 4)
           && (sizeof_MsgClientChatEnter L + 4
               <=? Z.of_nat (length data)))
    with true by (symmetry; rewrite andb_true_iff, !Z.leb_le; lia).
  cbn [reading]. now rewrite c_string_unterminated.
Qed.

End ChatEnter.

(** The room "room" with two members. *)
Lemma chat_enter_decoded_witness :
  exists chat response,
    Mem.read_u64 (repeat Byte.x01 41)
      (MsgClientChatEnter_steamIdChat Sample.language) = Some chat
    /\ Mem.read_u32 (repeat Byte.x01 41)
         (MsgClientChatEnter_enterResponse Sample.language)
       = Some response
    /\ HandleMessage Sample.language Sample.providers
         (Sample.ReadMessage false) Sample.ReadPast 0 false ClientChatEnter
         (repeat Byte.x01 41 ++ le_split 4 2 ++ Sample.ascii_bytes "room"
            ++ Byte.x00 :: [Byte.x09; Byte.x09]) 0 Sample.listening
       = (Returned,
          record
            (OnChatEnter chat response (Sample.ascii_bytes "room") 2
               [Byte.x09; Byte.x09])
            Sample.listening).
Proof.
  apply (chat_enter_decoded Sample.language Sample.providers
           (Sample.ReadMessage false) Sample.ReadPast 0 false
           (repeat Byte.x01 41) (Sample.ascii_bytes "room")
           [Byte.x09; Byte.x09] 2 0 Sample.listening).
  - constructor; unfold field_in; cbn; lia.
  - reflexivity.
  - reflexivity.
  - lia.
  - cbn. intros [H|[H|[H|[H|[]]]]]; discriminate H.
Defined.

(** A name that the payload does not close. *)
Lemma chat_enter_unterminated_witness :
  fst (HandleMessage Sample.language Sample.providers
         (Sample.ReadMessage false) Sample.ReadPast 0 false ClientChatEnter
         (repeat Byte.x01 41 ++ le_split 4 2 ++ Sample.ascii_bytes "room") 0
         Sample.listening)
  = BadRead.
Proof.
  apply (chat_enter_unterminated Sample.language Sample.providers
           (Sample.ReadMessage false) Sample.ReadPast 0 false
           (repeat Byte.x01 41 ++ le_split 4 2 ++ Sample.ascii_bytes "room") 0
           Sample.listening).
  - constructor; unfold field_in; cbn; lia.
  - reflexivity.
  - vm_compute. discriminate.
  - cbn. intros [H|[H|[H|[H|[]]]]]; discriminate H.
Defined.

(** ** Changes of state in a chat *)

Section ChatMemberInfo.

Variables (L : SteamLanguage) (P : Providers) (ReadMessage : bytes -> Action)
  (ReadPast : bytes -> Z -> Action) (rounds : nat).
Variable NDEBUG : bool.

(** X10. A state change in a chat is decoded part by part.  For a
    payload made of a header whose info type is the state change, the
    identifier that was acted on, the [u32] change, the identifier that
    acted, and a member record, a handler with the callback set invokes
    it once with the chat of the header, the identifier that acted, the
    one acted on, the change, and the view of the member record: the
    two identifiers are handed over in the reverse of their order on
    the wire. *)
Theorem chat_state_change_decoded (hdr member : bytes)
  (acted_on state_change acted_by job_id : Z) (c : SteamClient) :
  layout_ok L ->
  onChatStateChange c = true ->
  Z.of_nat (length hdr) = sizeof_MsgClientChatMemberInfo L ->
  Mem.read_u32 hdr (MsgClientChatMemberInfo_type L)
  = Some (EChatInfoType_StateChange L) ->
  0 <= acted_on < 2 ^ 64 ->
  0 <= state_change < 2 ^ 32 ->
  0 <= acted_by < 2 ^ 64 ->
  exists chat,
    Mem.read_u64 hdr (MsgClientChatMemberInfo_steamIdChat L) = Some chat
    /\ HandleMessage L P ReadMessage ReadPast rounds NDEBUG
         ClientChatMemberInfo
         (hdr ++ le_split 8 acted_on ++ le_split 4 state_change
            ++ le_split 8 acted_by ++ member) job_id c
       = (Returned,
          record
            (OnChatStateChange chat acted_by acted_on state_change member)
            c).
Proof.
  intros Hok Hset Hsize Htype Hon Hchange Hby.
  destruct (read_in_field hdr _ 8 _ (info_chat_in L Hok)) as [cb Hcb];
    [lia|lia|].
  exists (le_combine cb).
  assert (Hchat : Mem.read_u64 hdr (MsgClientChatMemberInfo_steamIdChat L)
                  = Some (le_combine cb))
    by (unfold Mem.read_u64; now rewrite Hcb).
  split; trivial.
  cbn [HandleMessage]. unfold handle_ClientChatMemberInfo, with_client.
  rewrite Hset. cbn [negb].
  rewrite (read_u32_app_l _ _ _ _ Htype). cbn [reading].
  rewrite Z.eqb_refl. cbn [negb]. rewrite <- Hsize.
  rewrite read_u64_middle by assumption. cbn [reading].
  set (data := hdr ++ le_split 8 acted_on ++ le_split 4 state_change
                 ++ le_split 8 acted_by ++ member).
  assert (Hread_change :
            Mem.read_u32 data (Z.of_nat (length hdr) + 8)
            = Some state_change).
  { unfold data. rewrite (app_assoc hdr).
    replace (Z.of_nat (length hdr) + 8)
      with (Z.of_nat (length (hdr ++ le_split 8 acted_on)))
      by (rewrite length_app, length_le_split; lia).
    now apply read_u32_middle. }
  rewrite Hread_change. cbn [reading].
  assert (Hread_by :
            Mem.read_u64 data (Z.of_nat (length hdr) + 8 + 4)
            = Some acted_by).
  { unfold data.
    replace (hdr ++ le_split 8 acted_on ++ le_split 4 state_change
               ++ le_split 8 acted_by ++ member)
      with ((hdr ++ le_split 8 acted_on ++ le_split 4 state_change)
              ++ le_split 8 acted_by ++ member)
      by (now rewrite <- !app_assoc).
    replace (Z.of_nat (length hdr) + 8 + 4)
      with (Z.of_nat
              (length (hdr ++ le_split 8 acted_on
                         ++ le_split 4 state_change)))
      by (rewrite !length_app, !length_le_split; lia).
    now apply read_u64_middle. }
  rewrite Hread_by. cbn [reading].
  assert (Hmember :
            Mem.view data (Z.of_nat (length hdr) + 8 + 4 + 8)
            = Some member).
  { unfold data.
    replace (hdr ++ le_split 8 acted_on ++ le_split 4 state_change
               ++ le_split 8 acted_by ++ member)
      with ((hdr ++ le_split 8 acted_on ++ le_split 4 state_change
               ++ le_split 8 acted_by) ++ member)
      by (now rewrite <- !app_assoc).
    replace (Z.of_nat (length hdr) + 8 + 4 + 8)
      with (Z.of_nat
              (length (hdr ++ le_split 8 acted_on
                         ++ le_split 4 state_change
                         ++ le_split 8 acted_by)))
      by (rewrite !length_app, !length_le_split; lia).
    apply view_app. }
  rewrite Hmember. cbn [reading].
  unfold data. rewrite (read_u64_app_l _ _ _ _ Hchat). reflexivity.
Qed.

(** X11. Only the state change is handled.  A chat-member-info message
    whose info type is another one is left at that: the handler
    returns, invokes no callback and reads nothing after the header,
    whatever follows it. *)
Theorem chat_info_other_type (data : bytes) (job_id type : Z)
  (c : SteamClient) :
  Mem.read_u32 data (MsgClientChatMemberInfo_type L) = Some type ->
  type <> EChatInfoType_StateChange L ->
  HandleMessage L P ReadMessage ReadPast rounds NDEBUG ClientChatMemberInfo
    data job_id c
  = (Returned, c).
Proof.
  intros Htype Hother.
  cbn [HandleMessage]. unfold handle_ClientChatMemberInfo, with_client.
  destruct (onChatStateChange c); cbn [negb]; [|reflexivity].
  rewrite Htype. cbn [reading].
  apply Z.eqb_neq in Hother. now rewrite Hother.
Qed.

End ChatMemberInfo.

(** Chat 5, where 7 acted on 6 with the change 3. *)
Lemma chat_state_change_decoded_witness :
  exists chat,
    Mem.read_u64 (le_split 8 5 ++ le_split 4 1)
      (MsgClientChatMemberInfo_steamIdChat Sample.language) = Some chat
    /\ HandleMessage Sample.language Sample.providers
         (Sample.ReadMessage false) Sample.ReadPast 0 false
         ClientChatMemberInfo
         ((le_split 8 5 ++ le_split 4 1) ++ le_split 8 6 ++ le_split 4 3
            ++ le_split 8 7 ++ [Byte.x09; Byte.x09]) 0 Sample.listening
       = (Returned,
          record (OnChatStateChange chat 7 6 3 [Byte.x09; Byte.x09])
            Sample.listening).
Proof.
  apply (chat_state_change_decoded Sample.language Sample.providers
           (Sample.ReadMessage false) Sample.ReadPast 0 false
           (le_split 8 5 ++ le_split 4 1) [Byte.x09; Byte.x09] 6 3 7 0
           Sample.listening).
  - constructor; unfold field_in; cbn; lia.
  - reflexivity.
  - reflexivity.
  - reflexivity.
  - lia.
  - lia.
  - lia.
Defined.

(** The info type 2, with nothing after the header. *)
Lemma chat_info_other_type_witness :
  HandleMessage Sample.language Sample.providers (Sample.ReadMessage false)
    Sample.ReadPast 0 false ClientChatMemberInfo (le_split 8 5 ++ le_split 4 2)
    0 Sample.listening
  = (Returned, Sample.listening).
Proof.
  apply (chat_info_other_type Sample.language Sample.providers
           (Sample.ReadMessage false) Sample.ReadPast 0 false
           (le_split 8 5 ++ le_split 4 2) 0 2 Sample.listening).
  - reflexivity.
  - discriminate.
Defined.

(** ** The answer to an encryption request *)

(** X12. The response to an encryption request has the layout that the
    peer reads back.  The handler returns after one send, of kind
    [ChannelEncryptResponse], with a clear flag and no job, of a body
    made of the header, the session key as it was encrypted, the CRC-32
    of the encrypted key as a little-endian [u32], and a [u32] zero; the
    client keeps the key that was encrypted, and its encrypted flag is
    not touched.  The payload of the request and its job id play no
    part. *)
Theorem encrypt_response_layout (L : SteamLanguage) (P : Providers)
  (ReadMessage : bytes -> Action) (ReadPast : bytes -> Z -> Action)
  (rounds : nat) (NDEBUG : bool) (data : bytes) (job_id : Z) (c : SteamClient) :
  exists body c',
    let header := new_MsgChannelEncryptResponse L in
    let crypted := RSA_public_encrypt P (sessionKey c') in
    let key_at := Z.of_nat (length header) in
    let crc_at := key_at + Z.of_nat (length crypted) in
    HandleMessage L P ReadMessage ReadPast rounds NDEBUG ChannelEncryptRequest
      data job_id c
    = (Returned, c')
    /\ log c' = log c ++ [WriteMessage ChannelEncryptResponse false body 0]
    /\ sessionKey c' = RAND_bytes P 32
    /\ encrypted c' = encrypted c
    /\ Z.of_nat (length body) = crc_at + 4 + 4
    /\ Mem.slice body 0 key_at = Some header
    /\ Mem.slice body key_at (Z.of_nat (length crypted)) = Some crypted
    /\ Mem.read_u32 body crc_at = Some (crc32 P crypted mod 2 ^ 32)
    /\ Mem.read_u32 body (crc_at + 4) = Some 0.
Proof.
  set (header := new_MsgChannelEncryptResponse L).
  set (crypted := RSA_public_encrypt P (RAND_bytes P 32)).
  exists (header ++ crypted ++ le_split 4 (crc32 P crypted)
            ++ le_split 4 0),
    (encrypt_request_answered L P c).
  cbn zeta. change (sessionKey (encrypt_request_answered L P c))
    with (RAND_bytes P 32).
  fold crypted. repeat split.
  - rewrite !length_app, !length_le_split. lia.
  - apply (slice_middle [] header).
  - apply slice_middle.
  - rewrite app_assoc.
    replace (Z.of_nat (length header) + Z.of_nat (length crypted))
      with (Z.of_nat (length (header ++ crypted)))
      by (rewrite length_app; lia).
    unfold Mem.read_u32.
    pose proof (slice_middle (header ++ crypted)
                  (le_split 4 (crc32 P crypted)) (le_split 4 0)) as E.
    rewrite length_le_split in E. change (Z.of_nat 4) with 4 in E.
    rewrite E. cbn [option_map]. now rewrite le_combine_split.
  - replace (header ++ crypted ++ le_split 4 (crc32 P crypted)
               ++ le_split 4 0)
      with ((header ++ crypted ++ le_split 4 (crc32 P crypted))
              ++ le_split 4 0 ++ [])
      by (now rewrite app_nil_r, <- !app_assoc).
    replace (Z.of_nat (length header) + Z.of_nat (length crypted) + 4)
      with (Z.of_nat
              (length (header ++ crypted ++ le_split 4 (crc32 P crypted))))
      by (rewrite !length_app, length_le_split; lia).
    apply read_u32_middle. lia.
Qed.

(** ** A dispatch that does not return *)

Lemma dispatch_all_stops (dispatch : bytes -> Action)
  (before after : list bytes) (body : bytes) (c c1 : SteamClient) :
  dispatch_all dispatch before c = (Returned, c1) ->
  fst (dispatch body c1) <> Returned ->
  dispatch_all dispatch (before ++ body :: after) c = dispatch body c1.
Proof.
  revert c. induction before as [|b before IH]; intros c;
    cbn [app dispatch_all]; unfold and_then.
  - intros [= ->] Hstop.
    destruct (dispatch body c1) as [[] c2]; trivial. now elim Hstop.
  - destruct (dispatch b c) as [[] c2]; try discriminate. apply IH.
Qed.

(** X13. A batch is given up at the first sub-message whose dispatch
    does not return.  The records before it are dispatched in order,
    the handler ends as that dispatch ended, with the client that it
    left, and no later record is dispatched. *)
Theorem multi_stops_at_failure (L : SteamLanguage) (P : Providers)
  (ReadMessage : bytes -> Action) (ReadPast : bytes -> Z -> Action)
  (rounds : nat) (NDEBUG : bool) (data : bytes) (job_id : Z)
  (before after : list bytes) (body : bytes) (c c1 : SteamClient) :
  carries P data (batch_of (before ++ body :: after)) ->
  Z.of_nat (length (batch_of (before ++ body :: after))) < 2 ^ 32 ->
  dispatch_all ReadMessage before c = (Returned, c1) ->
  fst (ReadMessage body c1) <> Returned ->
  HandleMessage L P ReadMessage ReadPast rounds NDEBUG Multi data job_id c
  = ReadMessage body c1.
Proof.
  intros Hcarries Hlen Hbefore Hstop.
  rewrite (multi_walks_buffer L P ReadMessage ReadPast rounds NDEBUG data _
             job_id c Hcarries).
  rewrite walk_whole_batch;
    [|assumption|pose proof (batch_of_length (before ++ body :: after)); lia].
  now apply dispatch_all_stops.
Qed.

(** An encryption result of code 2 between two machine-auth updates,
    with the assertions compiled in. *)
Lemma multi_stops_at_failure_witness :
  HandleMessage Sample.language Sample.providers (Sample.ReadMessage false)
    Sample.ReadPast 0 false Multi
    (le_split 4 0
       ++ batch_of ([Sample.auth_sub "ab"]
                      ++ (Byte.x03 :: le_split 4 2)
                      :: [Sample.auth_sub "cdef"])) 0 Sample.listening
  = Sample.ReadMessage false (Byte.x03 :: le_split 4 2)
      (snd (Sample.ReadMessage false (Sample.auth_sub "ab")
              Sample.listening)).
Proof.
  apply (multi_stops_at_failure Sample.language Sample.providers
           (Sample.ReadMessage false) Sample.ReadPast 0 false
           (le_split 4 0
              ++ batch_of ([Sample.auth_sub "ab"]
                             ++ (Byte.x03 :: le_split 4 2)
                             :: [Sample.auth_sub "cdef"])) 0
           [Sample.auth_sub "ab"] [Sample.auth_sub "cdef"]
           (Byte.x03 :: le_split 4 2) Sample.listening).
  - left. split; reflexivity.
  - reflexivity.
  - vm_compute. reflexivity.
  - vm_compute. discriminate.
Defined.

Example multi_stops_at_code_2 :
  HandleMessage Sample.language Sample.providers (Sample.ReadMessage false)
    Sample.ReadPast 0 false Multi
    (le_split 4 0
       ++ batch_of ([Sample.auth_sub "ab"]
                      ++ (Byte.x03 :: le_split 4 2)
                      :: [Sample.auth_sub "cdef"])) 0 Sample.listening
  = (Aborted,
     record_all
       [CallSHA1 (Sample.ascii_bytes "ab");
        WriteMessage ClientUpdateMachineAuthResponse true
          (Sha1.digest (Sample.ascii_bytes "ab")) 0;
        OnSentry (Sha1.digest (Sample.ascii_bytes "ab"))]
       Sample.listening).
Proof. by_evaluation. Qed.
